(** * Candle pipeline: a shallow embedding of [pipeline.go]

    The development follows the source file top-down: the Go library
    functions the program calls ([strconv.ParseInt], [strings.Split],
    [strings.SplitN], [fmt.Sprintf] with the verb [%d]), the price codec
    ([parsePrice], [formatPrice]), the line parser ([parse]), the reader
    ([read]), the window aggregator ([process]) and the writer ([write]).

    Modelling decisions, all local to this header:
    - a Go [int] is a 64-bit two's complement integer; it is a [Z] and
      every arithmetic result that Go stores in an [int] goes through
      [int_wrap];
    - a Go [string] is a sequence of bytes: [String.string];
    - a [time.Time] is the number of nanoseconds since the Unix epoch, in
      UTC, as an unbounded [Z]; a [time.Duration] is a [Z] of nanoseconds;
    - a channel is the sequence of values sent on it, in program order;
      the blocking of an unbuffered send is not modelled;
    - [map[string]*Candle] is a [gmap string Candle]; Go leaves the order
      of [range] over a map unspecified, the model enumerates a map in the
      order of [map_to_list]; a candle is not written to once it has been
      sent, so the pointers of the map are values here;
    - [process] is given the lines it receives, none of them nil; a loop
      that may run for ever takes a bound on its iterations and answers
      [None] when the bound is reached, and the bound [process] uses is
      proved to be enough for every positive span. *)

From Stdlib Require Import ZArith Lia String Ascii List.
From stdpp Require Import gmap strings list fin_maps.

Local Open Scope Z_scope.

(** ** Errors and fallible results *)

Inductive error : Type :=
  | ErrInvalidLineFormat            (* the package variable of that name *)
  | NumError (input : string)       (* *strconv.NumError *)
  | TimeParseError (input : string) (* *time.ParseError *)
  | IOError (msg : string).         (* any error of a reader or a writer *)

Inductive result (A : Type) : Type :=
  | Ok (a : A)
  | Err (e : error).
Arguments Ok {A} a.
Arguments Err {A} e.

Definition bind {A B : Type} (r : result A) (k : A -> result B) : result B :=
  match r with
  | Ok a => k a
  | Err e => Err e
  end.

Notation "'let!' x ':=' r 'in' k" := (bind r (fun x => k))
  (at level 10, x name, r at level 100, k at level 200).

(** ** Go's [int] *)

Definition minInt : Z := - 2 ^ 63.
Definition maxInt : Z := 2 ^ 63 - 1.

Definition int_wrap (z : Z) : Z := (z + 2 ^ 63) mod 2 ^ 64 - 2 ^ 63.

Definition in_int (z : Z) : Prop := minInt <= z <= maxInt.

(** ** The Go library functions the program uses *)

Module strconv.

Definition digit_val (c : ascii) : option Z :=
  let n := Z.of_N (N_of_ascii c) in
  if (48 <=? n) && (n <=? 57) then Some (n - 48) else None.

(** The digit loop of [ParseUint] in base 10: [None] on a byte that is
    not a decimal digit. The accumulator is unbounded here; the range
    test is made once, in [ParseInt]. *)
Fixpoint digits_val (s : string) (n : Z) : option Z :=
  match s with
  | EmptyString => Some n
  | String c s' =>
      match digit_val c with
      | Some d => digits_val s' (n * 10 + d)
      | None => None
      end
  end.

(** [strconv.ParseInt(s, 10, 0)]: an optional sign, then one decimal
    digit or more; the value has to fit an [int]. Both of Go's failures
    (syntax, range) are one [NumError]. *)
Definition ParseInt (s : string) : result Z :=
  match s with
  | EmptyString => Err (NumError s)
  | String c rest =>
      let neg := Ascii.eqb c "-" in
      let body := if Ascii.eqb c "+" || neg then rest else s in
      match body with
      | EmptyString => Err (NumError s)
      | _ =>
          match digits_val body 0 with
          | None => Err (NumError s)
          | Some un =>
              if negb neg && (2 ^ 63 <=? un) then Err (NumError s)
              else if neg && (2 ^ 63 <? un) then Err (NumError s)
              else Ok (if neg then - un else un)
          end
      end
  end.

Definition digit_char (d : Z) : ascii := ascii_of_N (48 + Z.to_N d).

(** Decimal digits of a non-negative number, written from the last one
    backwards in front of [acc]. *)
Fixpoint utoa_aux (fuel : nat) (n : Z) (acc : string) : string :=
  match fuel with
  | O => acc
  | S f =>
      let acc' := String (digit_char (n mod 10)) acc in
      if n <? 10 then acc' else utoa_aux f (n / 10) acc'
  end.

Definition utoa (n : Z) : string :=
  utoa_aux (S (Z.to_nat (Z.log2 n))) n EmptyString.

(** [fmt.Sprintf("%d", z)] *)
Definition itoa (z : Z) : string :=
  if z <? 0 then String "-" (utoa (- z)) else utoa z.

End strconv.

Module gostrings.

(** The text before the first [sep], and the text after it if there is
    one. *)
Fixpoint cut (sep : ascii) (s : string) : string * option string :=
  match s with
  | EmptyString => (EmptyString, None)
  | String c s' =>
      if Ascii.eqb c sep then (EmptyString, Some s')
      else let '(a, b) := cut sep s' in (String c a, b)
  end.

(** [strings.SplitN(s, sep, 2)] for a one-byte separator *)
Definition SplitN2 (s : string) (sep : ascii) : list string :=
  match cut sep s with
  | (a, None) => [a]
  | (a, Some b) => [a; b]
  end.

(** [strings.Split(s, sep)] for a one-byte separator *)
Fixpoint Split (s : string) (sep : ascii) : list string :=
  match s with
  | EmptyString => [EmptyString]
  | String c s' =>
      if Ascii.eqb c sep then EmptyString :: Split s' sep
      else match Split s' sep with
           | h :: t => String c h :: t
           | [] => [String c EmptyString]
           end
  end.

End gostrings.

(** ** The price codec *)

(** [if len(cents) == 1 { cents += "0" }] *)
Definition pad_cents (cents : string) : string :=
  if (String.length cents =? 1)%nat then String.append cents "0" else cents.

Definition parsePrice (str : string) : result Z :=
  let parts := gostrings.SplitN2 str "." in
  let! i := strconv.ParseInt (nth 0 parts EmptyString) in
  let price := int_wrap (i * 100) in
  match parts with
  | _ :: cents :: _ =>
      let! i := strconv.ParseInt (pad_cents cents) in
      Ok (int_wrap (price + i))
  | _ => Ok price
  end.

(** Go's [%] and [/] on [int] truncate towards zero: [Z.rem], [Z.quot]. *)
Definition formatPrice (price : Z) : string :=
  let rem := Z.rem price 100 in
  if 0 <? rem then
    let rem := if Z.rem rem 10 =? 0 then Z.quot rem 10 else rem in
    String.append (strconv.itoa (Z.quot price 100))
      (String "." (strconv.itoa rem))
  else strconv.itoa (Z.quot price 100).

(** ** Ticks and candles *)

Record Line : Type := mkLine {
  Ticker : string;
  Timestamp : Z;
  Price : Z;
  Count : Z
}.

(** The struct [Candle]; its field [Ticker] is [CandleTicker] here, the
    name being taken by [Line]. *)
Record Candle : Type := mkCandle {
  CandleTicker : string;
  Start : Z;
  PriceStart : Z;
  PriceEnd : Z;
  PriceMin : Z;
  PriceMax : Z
}.

Definition newCandle (ts : Z) (ticker : string) (price : Z) : Candle :=
  {| CandleTicker := ticker;
     Start := ts;
     PriceStart := price;
     PriceMax := price;
     PriceMin := price;
     PriceEnd := price |}.

(** ** The line parser and the reader *)

Section Reader.

(** [time.Parse("2006-01-02 15:04:05.999999", s)], of Go's library. *)
Variable timeParse : string -> result Z.

Definition parse (str : string) : result Line :=
  let parts := gostrings.Split str "," in
  if (length parts <? 4)%nat then Err ErrInvalidLineFormat
  else
    let! price := parsePrice (nth 1 parts EmptyString) in
    let! i := strconv.ParseInt (nth 2 parts EmptyString) in
    let! ts := timeParse (nth 3 parts EmptyString) in
    Ok {| Ticker := nth 0 parts EmptyString;
          Timestamp := ts;
          Price := price;
          Count := i |}.

(** What [read] does on its channels. A [*Line] is an [option Line],
    [None] being the nil pointer; outputs are numbered from 0 in the
    order of [outs]. *)
Inductive read_event : Type :=
  | ReadErr (e : error)                      (* errch <- e *)
  | ReadSend (out : nat) (line : option Line) (* outs[out] <- line *)
  | ReadClose (out : nat).                   (* close(outs[out]) *)

(** One iteration of the scanning loop: [parse] returns a nil line
    together with its error. *)
Definition read_line (nouts : nat) (text : string) : list read_event :=
  let '(line, err) :=
    match parse text with
    | Ok line => (Some line, None)
    | Err e => (None, Some e)
    end in
  match err with
  | Some e => [ReadErr e]
  | None => []
  end
  ++ map (fun out => ReadSend out line) (seq 0 nouts).

(** [texts] are the lines the scanner yields and [scanErr] is what
    [scanner.Err()] returns after the last of them. *)
Definition read (texts : list string) (scanErr : option error)
    (nouts : nat) : list read_event :=
  flat_map (read_line nouts) texts
  ++ match scanErr with
     | Some e => [ReadErr e]
     | None => []
     end
  ++ map ReadClose (seq 0 nouts).

End Reader.

(** ** The window aggregator *)

Definition Minute : Z := 60 * 1000000000.
Definition Hour : Z := 60 * Minute.
Definition TradesStart : Z := 420 * Minute.
Definition TradesDuration : Z := 1020 * Minute.

(** The local variables of [process]: [day], the three fields of
    [interval], the map [candles], and the values sent on [out] so far. *)
Record pstate : Type := mkState {
  day : Z;
  l : Z;
  r : Z;
  max : Z;
  candles : gmap string Candle;
  out : list Candle
}.

(** [time.Date(y, m, d, 0, 0, 0, 0, time.UTC)] for the date of [ts]. *)
Definition midnight (ts : Z) : Z := ts - ts mod (24 * Hour).

(** The state after the first line has been received. *)
Definition process_first (span : Z) (line : Line) : pstate :=
  let day := midnight (Timestamp line) in
  let start := day + TradesStart in
  {| day := day;
     l := start;
     r := start + span;
     max := start + TradesDuration;
     candles :=
       if Timestamp line <? start then ∅
       else {[ Ticker line := newCandle start (Ticker line) (Price line) ]};
     out := [] |}.

(** The loop "flush candles": every candle is sent and deleted. *)
Definition flush (st : pstate) : pstate :=
  {| day := day st; l := l st; r := r st; max := max st;
     candles := ∅;
     out := out st ++ (map_to_list (candles st)).*2 |}.

(** One iteration of the loop "adjust interval". *)
Definition adjust_step (span : Z) (st : pstate) : pstate :=
  if r st =? max st then
    let day' := day st + 24 * Hour in
    let l' := day' + TradesStart in
    {| day := day'; l := l'; r := l' + span; max := l' + TradesDuration;
       candles := candles st; out := out st |}
  else
    let l' := l st + span in
    let r' := r st + span in
    {| day := day st; l := l';
       r := if max st <? r' then max st else r';
       max := max st;
       candles := candles st; out := out st |}.

(** The loop "adjust interval", at most [fuel] iterations of it: [None]
    when the loop is still running after them. *)
Fixpoint adjust (fuel : nat) (span ts : Z) (st : pstate) : option pstate :=
  if r st <? ts then
    match fuel with
    | O => None
    | S fuel' => adjust fuel' span ts (adjust_step span st)
    end
  else Some st.

(** A bound on the iterations of "adjust interval" from [st] for [ts]:
    the day changes still ahead, each with the windows of a whole session,
    and the windows left in the current session. *)
Definition days_ahead (ts : Z) (st : pstate) : Z :=
  Z.max 0 ((ts - max st + 24 * Hour - 1) / (24 * Hour)).

Definition windows_left (span : Z) (st : pstate) : Z :=
  if r st =? max st then 0
  else if max st <? r st then 1
  else (max st - r st + span - 1) / span.

Definition adjust_bound (span ts : Z) (st : pstate) : Z :=
  days_ahead ts st * (TradesDuration / span + 3) + windows_left span st.

Definition adjust_fuel (span ts : Z) (st : pstate) : nat :=
  Z.to_nat (adjust_bound span ts st + 1).

(** The three statements of "aggregate lines by ticker" for a ticker that
    has a candle. *)
Definition update_candle (candle : Candle) (price : Z) : Candle :=
  let candle1 :=
    if price <? PriceMin candle
    then {| CandleTicker := CandleTicker candle; Start := Start candle;
            PriceStart := PriceStart candle; PriceEnd := PriceEnd candle;
            PriceMin := price; PriceMax := PriceMax candle |}
    else candle in
  let candle2 :=
    if PriceMax candle1 <? price
    then {| CandleTicker := CandleTicker candle1; Start := Start candle1;
            PriceStart := PriceStart candle1; PriceEnd := PriceEnd candle1;
            PriceMin := PriceMin candle1; PriceMax := price |}
    else candle1 in
  {| CandleTicker := CandleTicker candle2; Start := Start candle2;
     PriceStart := PriceStart candle2; PriceEnd := price;
     PriceMin := PriceMin candle2; PriceMax := PriceMax candle2 |}.

(** "aggregate lines by ticker" *)
Definition aggregate (st : pstate) (line : Line) : pstate :=
  let candle' :=
    match candles st !! Ticker line with
    | Some candle => update_candle candle (Price line)
    | None => newCandle (l st) (Ticker line) (Price line)
    end in
  {| day := day st; l := l st; r := r st; max := max st;
     candles := <[ Ticker line := candle' ]> (candles st);
     out := out st |}.

(** The body of [for line := range in]: [None] when "adjust interval"
    does not come to an end. *)
Definition process_line (span : Z) (st : pstate) (line : Line) : option pstate :=
  if Timestamp line <? l st then Some st (* discard line *)
  else if (r st <? Timestamp line) || (Timestamp line =? r st) then
    let st1 := flush st in
    match adjust (adjust_fuel span (Timestamp line) st1) span (Timestamp line) st1 with
    | Some st2 => Some (aggregate st2 line)
    | None => None
    end
  else Some (aggregate st line).

Fixpoint process_loop (span : Z) (st : pstate) (lines : list Line) : option pstate :=
  match lines with
  | [] => Some st
  | line :: lines' =>
      match process_line span st line with
      | Some st' => process_loop span st' lines'
      | None => None
      end
  end.

(** The state of [process] when its input is closed, before "send
    remaining candles"; [None] for an empty input, which has no state. *)
Definition process_state (span : Z) (lines : list Line) : option pstate :=
  match lines with
  | [] => None
  | line :: lines' => process_loop span (process_first span line) lines'
  end.

(** [process span in out]: the candles sent on [out] until it is closed,
    for the lines received from [in] until it is closed. *)
Definition process (span : Z) (lines : list Line) : option (list Candle) :=
  match lines with
  | [] => Some []
  | line :: lines' =>
      match process_loop span (process_first span line) lines' with
      | Some st => Some (out st ++ (map_to_list (candles st)).*2)
      | None => None
      end
  end.

(** ** The writer *)

Section Writer.

(** An [io.Writer]: its state, and [Write], which may fail. *)
Variable W : Type.
Variable Fwrite : W -> string -> W * option error.

(** [t.Format(time.RFC3339)], of Go's library. *)
Variable formatTime : Z -> string.

Inductive write_event : Type :=
  | WriteRecord (text : string) (* w.Write(text), through fmt.Fprintf *)
  | WriteErr (e : error)        (* errch <- e *)
  | WriteDone.                  (* out <- struct{}{} *)

Definition comma (a b : string) : string :=
  String.append a (String "," b).

Definition candle_record (candle : Candle) : string :=
  comma (CandleTicker candle)
    (comma (formatTime (Start candle))
       (comma (formatPrice (PriceStart candle))
          (comma (formatPrice (PriceMax candle))
             (comma (formatPrice (PriceMin candle))
                (String.append (formatPrice (PriceEnd candle))
                   (String "010"%char EmptyString)))))).

Fixpoint write_loop (w : W) (cs : list Candle) : W * list write_event :=
  match cs with
  | [] => (w, [])
  | candle :: cs' =>
      let text := candle_record candle in
      let '(w1, err) := Fwrite w text in
      let '(w2, evs) := write_loop w1 cs' in
      (w2, WriteRecord text
             :: match err with
                | Some e => [WriteErr e]
                | None => []
                end
             ++ evs)
  end.

Definition write (w : W) (cs : list Candle) : W * list write_event :=
  let '(w', evs) := write_loop w cs in
  (w', evs ++ [WriteDone]).

End Writer.

(** ** Predicates on strings, for the statements below *)

(** Every byte of a string satisfies a test. *)
Fixpoint all_chars (P : ascii -> bool) (s : string) : bool :=
  match s with
  | EmptyString => true
  | String c s' => P c && all_chars P s'
  end.

Definition is_digit (c : ascii) : bool :=
  match strconv.digit_val c with Some _ => true | None => false end.

Definition not_dot (c : ascii) : bool := negb (Ascii.eqb c ".").

(** ** The price codec as the specification words it *)

(** Split on the first ".", the text before it counts whole units, the
    text after it, padded to two digits, counts cents; the sum is a Go
    [int]. *)
Definition parsePrice_spec (text : string) : result Z :=
  match gostrings.cut "." text with
  | (whole, None) =>
      let! wholePart := strconv.ParseInt whole in
      Ok (int_wrap (wholePart * 100))
  | (whole, Some frac) =>
      let! wholePart := strconv.ParseInt whole in
      let! centsPart := strconv.ParseInt (pad_cents frac) in
      Ok (int_wrap (wholePart * 100 + centsPart))
  end.

(** No fraction for a remainder of 0, one digit for a remainder that is a
    multiple of 10, the remainder as it is otherwise. *)
Definition formatPrice_spec (price : Z) : string :=
  let remainder := Z.rem price 100 in
  if remainder =? 0 then strconv.itoa (Z.quot price 100)
  else if Z.rem remainder 10 =? 0 then
    String.append (strconv.itoa (Z.quot price 100))
      (String "." (strconv.itoa (Z.quot remainder 10)))
  else
    String.append (strconv.itoa (Z.quot price 100))
      (String "." (strconv.itoa remainder)).

(** ** Reading a trace of the writer *)

Section WriterTrace.

Context {W : Type}.
Variable Fwrite : W -> string -> W * option error.
Variable formatTime : Z -> string.

Definition written_records (evs : list write_event) : list string :=
  flat_map (fun ev => match ev with WriteRecord text => [text] | _ => [] end) evs.

Definition reported_errors (evs : list write_event) : list error :=
  flat_map (fun ev => match ev with WriteErr e => [e] | _ => [] end) evs.

Definition completions (evs : list write_event) : nat :=
  length (flat_map (fun ev => match ev with WriteDone => [tt] | _ => [] end) evs).

(** The errors the writer [w] answers with when it is given the records
    of [cs] one after the other. *)
Fixpoint write_failures (w : W) (cs : list Candle) : list error :=
  match cs with
  | [] => []
  | candle :: cs' =>
      let '(w1, err) := Fwrite w (candle_record formatTime candle) in
      match err with
      | Some e => e :: write_failures w1 cs'
      | None => write_failures w1 cs'
      end
  end.

End WriterTrace.

(** ** Candles, for the statements below *)

Definition candle_ok (c : Candle) : Prop :=
  PriceMin c <= PriceStart c <= PriceMax c /\
  PriceMin c <= PriceEnd c <= PriceMax c.

(** The candle of a ticker whose prices in the window starting at [start]
    are [p :: ps], in the order of arrival. *)
Definition candle_of (start : Z) (ticker : string) (p : Z) (ps : list Z) : Candle :=
  {| CandleTicker := ticker;
     Start := start;
     PriceStart := p;
     PriceEnd := List.last ps p;
     PriceMin := fold_left Z.min ps p;
     PriceMax := fold_left Z.max ps p |}.

(** The prices of the lines of one ticker, in the order of arrival. *)
Definition prices_of (ticker : string) (lines : list Line) : list Z :=
  Price <$> filter (fun line => Ticker line = ticker) lines.

(** What one more price does to the candle of a ticker, if it has one. *)
Definition open_step (start : Z) (ticker : string) (oc : option Candle) (p : Z)
    : option Candle :=
  Some match oc with
       | Some c => update_candle c p
       | None => newCandle start ticker p
       end.

(** Every candle of a state, open or sent, is well formed. *)
Definition state_ok (st : pstate) : Prop :=
  map_Forall (fun _ c => candle_ok c) (candles st) /\ Forall candle_ok (out st).

(** Nothing but the candles and the output differs between two states. *)
Definition same_window (st st' : pstate) : Prop :=
  day st' = day st /\ l st' = l st /\ r st' = r st /\ max st' = max st.

(** The session geometry [process] keeps: the session of [day] ends at the
    next midnight. *)
Definition session_ok (st : pstate) : Prop :=
  max st = day st + 24 * Hour.

(** The instant [h:m:s] and [ns] nanoseconds of the day number [d] after
    1970-01-01; 2019-01-30 is day 17926. *)
Definition clock (d h m s ns : Z) : Z :=
  d * (24 * Hour) + h * Hour + m * Minute + s * 1000000000 + ns.

(** ** Further notions, for the properties of the rest of the code *)

From stdpp Require sorting.

Definition not_comma (c : ascii) : bool := negb (Ascii.eqb c ",").

(** The bytes a printed number is made of. *)
Definition is_num_char (c : ascii) : bool :=
  is_digit c || Ascii.eqb c "-" || Ascii.eqb c ".".

Fixpoint count_char (sep : ascii) (s : string) : nat :=
  match s with
  | EmptyString => 0
  | String c s' => (if Ascii.eqb c sep then 1 else 0) + count_char sep s'
  end.

(** Fields with a comma between each two of them. *)
Fixpoint join_fields (fields : list string) : string :=
  match fields with
  | [] => EmptyString
  | [field] => field
  | field :: fields' => comma field (join_fields fields')
  end.

(** What [read] passes on for a line: the line, or nil. *)
Definition parse_or_nil (timeParse : string -> result Z) (text : string)
    : option Line :=
  match parse timeParse text with
  | Ok line => Some line
  | Err _ => None
  end.

Definition parse_failures (timeParse : string -> result Z)
    (texts : list string) : list error :=
  flat_map (fun text => match parse timeParse text with
                        | Ok _ => []
                        | Err e => [e]
                        end) texts.

(** The lines sent to one output, the errors reported and the outputs
    closed, each in the order of the trace. *)
Definition sent_to (i : nat) (evs : list read_event) : list (option Line) :=
  flat_map (fun ev => match ev with
                      | ReadSend o line => if (o =? i)%nat then [line] else []
                      | _ => []
                      end) evs.

Definition read_errors (evs : list read_event) : list error :=
  flat_map (fun ev => match ev with ReadErr e => [e] | _ => [] end) evs.

Definition closed_outputs (evs : list read_event) : list nat :=
  flat_map (fun ev => match ev with ReadClose o => [o] | _ => [] end) evs.

(** ** Invariants of the aggregator *)

(** The open candles are filed under their own ticker and start at the
    start of the current window. *)
Definition open_ok (st : pstate) : Prop :=
  map_Forall (fun k c => CandleTicker c = k /\ Start c = l st) (candles st).

(** The ticker and the four prices of a candle are those of lines of the
    input. *)
Definition from_lines (lines : list Line) (c : Candle) : Prop :=
  forall p,
    p = PriceStart c \/ p = PriceEnd c \/ p = PriceMin c \/ p = PriceMax c ->
    exists line, line ∈ lines /\ Ticker line = CandleTicker c /\ Price line = p.

Definition all_from_lines (lines : list Line) (st : pstate) : Prop :=
  map_Forall (fun _ c => from_lines lines c) (candles st) /\
  Forall (from_lines lines) (out st).

(** The window of a state within the session of its day, for a span that
    fits a session: it starts on the grid of the session and ends one span
    later, or at the session end if that comes first. *)
Definition window_ok (span : Z) (st : pstate) : Prop :=
  session_ok st /\ day st mod (24 * Hour) = 0 /\
  l st < max st /\ r st = Z.min (l st + span) (max st) /\
  exists k, 0 <= k /\ l st = day st + TradesStart + k * span.

(** A window start on the grid of the session of some day. *)
Definition aligned (span start : Z) : Prop :=
  exists d k, d mod (24 * Hour) = 0 /\ 0 <= k /\
              start = d + TradesStart + k * span /\ start < d + 24 * Hour.

Definition starts_ok (span : Z) (st : pstate) : Prop :=
  window_ok span st /\
  map_Forall (fun _ c => Start c = l st) (candles st) /\
  Forall (fun c => aligned span (Start c) /\ Start c <= l st) (out st) /\
  Sorted.StronglySorted (fun a b => Start a <= Start b) (out st).

(** ** The wait at the end of [pipeline] *)

(** The case a [select] of the loop takes: an error from [errch], the end
    of the context, or a completion from [done]. *)
Inductive wait_event : Type :=
  | WaitErr (e : error)
  | WaitDeadline
  | WaitDone.

(** The loop [for i := 0; i < len(tasks); i++ { select ... }] for [n]
    tasks: [events] are the cases its [select] takes, one after the other,
    and [ctxErr] is what [ctx.Err()] returns. The result is what
    [pipeline] returns, [Some None] being nil; it is [None] while the loop
    is waiting, every event taken. *)
Fixpoint pipeline_wait (n : nat) (ctxErr : error) (events : list wait_event)
    : option (option error) :=
  match n with
  | O => Some None
  | S n' =>
      match events with
      | [] => None
      | WaitErr e :: _ => Some (Some e)
      | WaitDeadline :: _ => Some (Some ctxErr)
      | WaitDone :: events' => pipeline_wait n' ctxErr events'
      end
  end.

(** ** Decimal notation, for the statements about the price codec *)

(** The value of a byte as a decimal digit. *)
Definition digit_of (c : ascii) : Z := Z.of_N (N_of_ascii c) - 48.

(** The number a text of digits denotes: a digit weighs ten times the
    digit after it. *)
Fixpoint dec_value (s : string) : Z :=
  match s with
  | EmptyString => 0
  | String c s' => digit_of c * 10 ^ Z.of_nat (String.length s') + dec_value s'
  end.

Definition unsigned_decimal (s : string) : option Z :=
  match s with
  | EmptyString => None
  | _ => if all_chars is_digit s then Some (dec_value s) else None
  end.

(** A base-10 integer and its value: digits, one at least, after at most
    one sign. *)
Definition decimal_int (s : string) : option Z :=
  match s with
  | EmptyString => None
  | String c body =>
      if Ascii.eqb c "+" then unsigned_decimal body
      else if Ascii.eqb c "-" then
        match unsigned_decimal body with
        | Some n => Some (- n)
        | None => None
        end
      else unsigned_decimal s
  end.

(** * Properties *)

(** ** The tests of the repository, run on the model *)

Example parsePrice_tests :
  parsePrice "213.82" = Ok 21382 /\ parsePrice "213.8" = Ok 21380 /\
  parsePrice "213" = Ok 21300.
Proof. repeat split; vm_compute; reflexivity. Qed.

Example formatPrice_tests :
  formatPrice 21382 = "213.82"%string /\ formatPrice 21380 = "213.8"%string /\
  formatPrice 21300 = "213"%string.
Proof. repeat split; vm_compute; reflexivity. Qed.

(** The test of [read]: the fields of a line, for whatever [time.Parse]
    makes of the timestamp. *)
Example parse_test (timeParse : string -> result Z) (t : Z) :
  timeParse "2019-01-30 06:59:45.000249" = Ok t ->
  parse timeParse "SBER,213.8,100,2019-01-30 06:59:45.000249" =
  Ok {| Ticker := "SBER"; Timestamp := t; Price := 21380; Count := 100 |}.
Proof.
  intros Ht. vm_compute. rewrite Ht. reflexivity.
Qed.

(** The test of [write]: the record of a candle. *)
Example candle_record_test :
  candle_record (fun _ => "2019-01-30T07:00:00Z"%string)
    {| CandleTicker := "SBER"; Start := clock 17926 7 0 0 0;
       PriceStart := 21380; PriceMax := 21414;
       PriceMin := 21310; PriceEnd := 21317 |} =
  String.append "SBER,2019-01-30T07:00:00Z,213.8,214.14,213.1,213.17"
    (String "010"%char EmptyString).
Proof. vm_compute. reflexivity. Qed.

(** ** Strings *)

Lemma append_nil_l (b : string) : String.append EmptyString b = b.
Proof. reflexivity. Qed.

Lemma append_cons (x : ascii) (a b : string) :
  String.append (String x a) b = String x (String.append a b).
Proof. reflexivity. Qed.

Ltac simpl_append := rewrite ?append_cons, ?append_nil_l; simpl.

Lemma append_assoc (a b c : string) :
  String.append (String.append a b) c = String.append a (String.append b c).
Proof. induction a as [|x a IH]; simpl_append; [reflexivity | now rewrite IH]. Qed.

Lemma append_nil_r (a : string) : String.append a EmptyString = a.
Proof. induction a as [|x a IH]; simpl_append; [reflexivity | now rewrite IH]. Qed.

Lemma length_append (a b : string) :
  String.length (String.append a b) = (String.length a + String.length b)%nat.
Proof. induction a as [|x a IH]; simpl_append; [reflexivity | now rewrite IH]. Qed.

Lemma all_chars_append P a b :
  all_chars P (String.append a b) = all_chars P a && all_chars P b.
Proof.
  induction a as [|x a IH]; simpl_append; [reflexivity|].
  now rewrite IH, andb_assoc.
Qed.

Lemma all_chars_impl (P Q : ascii -> bool) s :
  (forall c, P c = true -> Q c = true) ->
  all_chars P s = true -> all_chars Q s = true.
Proof.
  intros HPQ. induction s as [|c s IH]; simpl; [reflexivity|].
  rewrite !andb_true_iff. intros [Hc Hs]. split; auto.
Qed.

Lemma is_digit_not_dot c : is_digit c = true -> not_dot c = true.
Proof.
  unfold not_dot. destruct (Ascii.eqb_spec c "."%char) as [->|]; [|reflexivity].
  vm_compute. discriminate.
Qed.

Lemma is_digit_not_sign c :
  is_digit c = true -> Ascii.eqb c "+" = false /\ Ascii.eqb c "-" = false.
Proof.
  intros H. split.
  - destruct (Ascii.eqb_spec c "+"%char) as [->|]; [|reflexivity].
    vm_compute in H. discriminate.
  - destruct (Ascii.eqb_spec c "-"%char) as [->|]; [|reflexivity].
    vm_compute in H. discriminate.
Qed.

(** ** [strings.SplitN] *)

Lemma cut_no_sep (s : string) :
  all_chars not_dot s = true -> gostrings.cut "." s = (s, None).
Proof.
  induction s as [|c s IH]; simpl; [reflexivity|].
  rewrite andb_true_iff. intros [Hc Hs]. unfold not_dot in Hc.
  destruct (Ascii.eqb c "."); [discriminate|]. now rewrite IH.
Qed.

Lemma cut_first_sep (a b : string) :
  all_chars not_dot a = true ->
  gostrings.cut "." (String.append a (String "." b)) = (a, Some b).
Proof.
  induction a as [|c a IH]; simpl_append; [reflexivity|].
  rewrite andb_true_iff. intros [Hc Ha]. unfold not_dot in Hc.
  destruct (Ascii.eqb c "."); [discriminate|]. now rewrite IH.
Qed.

(** ** [strconv]: printing a number and reading it back *)

Lemma digit_val_char (d : Z) :
  0 <= d < 10 -> strconv.digit_val (strconv.digit_char d) = Some d.
Proof.
  intros H.
  assert (d = 0 \/ d = 1 \/ d = 2 \/ d = 3 \/ d = 4 \/ d = 5 \/ d = 6 \/
          d = 7 \/ d = 8 \/ d = 9) as Hd by lia.
  repeat (destruct Hd as [-> | Hd]; [reflexivity|]). now subst.
Qed.

Lemma digits_val_append (p q : string) (n : Z) :
  strconv.digits_val (String.append p q) n =
  match strconv.digits_val p n with
  | Some m => strconv.digits_val q m
  | None => None
  end.
Proof.
  revert n. induction p as [|c p IH]; intros n; simpl_append; [reflexivity|].
  destruct (strconv.digit_val c); [apply IH | reflexivity].
Qed.

Lemma utoa_aux_one (n : Z) (acc : string) :
  0 <= n < 10 ->
  let p := String (strconv.digit_char (n mod 10)) EmptyString in
  String (strconv.digit_char (n mod 10)) acc = String.append p acc /\
  p <> EmptyString /\
  all_chars is_digit p = true /\
  strconv.digits_val p 0 = Some n.
Proof.
  intros Hn p. subst p. rewrite Z.mod_small by lia.
  split; [reflexivity|]. split; [discriminate|].
  simpl. unfold is_digit. rewrite digit_val_char by lia.
  split; [reflexivity | f_equal; lia].
Qed.

(** What [utoa_aux] puts in front of [acc]: the digits of [n]. *)
Lemma utoa_aux_spec (f : nat) : forall (n : Z) (acc : string),
  0 <= n < 10 * 2 ^ Z.of_nat f ->
  exists p, strconv.utoa_aux (S f) n acc = String.append p acc /\
            p <> EmptyString /\
            all_chars is_digit p = true /\
            strconv.digits_val p 0 = Some n.
Proof.
  induction f as [|f IH]; intros n acc Hn.
  - cbn [strconv.utoa_aux]. change (2 ^ Z.of_nat 0) with 1 in Hn.
    assert ((n <? 10) = true) as -> by lia.
    eexists. apply utoa_aux_one. lia.
  - cbn [strconv.utoa_aux]. destruct (n <? 10) eqn:Hlt.
    + eexists. apply utoa_aux_one. lia.
    + assert (0 <= n / 10 < 10 * 2 ^ Z.of_nat f) as Hq.
      { rewrite Nat2Z.inj_succ, Z.pow_succ_r in Hn by lia.
        split; [apply Z.div_pos; lia | apply Z.div_lt_upper_bound; lia]. }
      destruct (IH (n / 10) (String (strconv.digit_char (n mod 10)) acc) Hq)
        as (p & Hp & Hne & Hdig & Hval).
      exists (String.append p (String (strconv.digit_char (n mod 10)) EmptyString)).
      assert (0 <= n mod 10 < 10) as Hm by (apply Z.mod_pos_bound; lia).
      split; [|split; [|split]].
      * cbn [strconv.utoa_aux] in Hp. rewrite Hp, append_assoc. reflexivity.
      * destruct p; [congruence | discriminate].
      * rewrite all_chars_append, Hdig. simpl. unfold is_digit.
        now rewrite digit_val_char.
      * rewrite digits_val_append, Hval. simpl.
        rewrite digit_val_char by assumption. f_equal.
        pose proof (Z.div_mod n 10). lia.
Qed.

Lemma utoa_spec (n : Z) :
  0 <= n ->
  strconv.utoa n <> EmptyString /\
  all_chars is_digit (strconv.utoa n) = true /\
  strconv.digits_val (strconv.utoa n) 0 = Some n.
Proof.
  intros Hn. unfold strconv.utoa.
  assert (0 <= n < 10 * 2 ^ Z.of_nat (Z.to_nat (Z.log2 n))) as Hb.
  { rewrite Z2Nat.id by apply Z.log2_nonneg.
    destruct (Z.eq_dec n 0) as [->|Hne]; [simpl; lia|].
    pose proof (Z.log2_spec n ltac:(lia)) as Hs.
    rewrite Z.pow_succ_r in Hs by apply Z.log2_nonneg. lia. }
  destruct (utoa_aux_spec _ n EmptyString Hb) as (p & Hp & Hne & Hdig & Hval).
  rewrite Hp, append_nil_r. auto.
Qed.

(** [ParseInt] on an unsigned decimal text. *)
Lemma ParseInt_digits (s : string) (n : Z) :
  s <> EmptyString -> all_chars is_digit s = true ->
  strconv.digits_val s 0 = Some n -> 0 <= n <= maxInt ->
  strconv.ParseInt s = Ok n.
Proof.
  intros Hne Hdig Hval Hn. destruct s as [|c s]; [congruence|].
  simpl in Hdig. apply andb_true_iff in Hdig as [Hc _].
  destruct (is_digit_not_sign c Hc) as [Hplus Hminus].
  unfold strconv.ParseInt. rewrite Hplus, Hminus. cbn [orb negb andb].
  rewrite Hval. unfold maxInt in Hn.
  assert ((2 ^ 63 <=? n) = false) as -> by lia. reflexivity.
Qed.

Lemma ParseInt_itoa (n : Z) :
  0 <= n <= maxInt -> strconv.ParseInt (strconv.itoa n) = Ok n.
Proof.
  intros Hn. unfold strconv.itoa. assert ((n <? 0) = false) as -> by lia.
  destruct (utoa_spec n) as (Hne & Hdig & Hval); [lia|].
  now apply ParseInt_digits.
Qed.

Lemma utoa_small (n : Z) :
  0 <= n < 10 ->
  strconv.utoa n = String (strconv.digit_char n) EmptyString.
Proof.
  intros Hn. unfold strconv.utoa. cbn [strconv.utoa_aux].
  assert ((n <? 10) = true) as -> by lia. now rewrite Z.mod_small by lia.
Qed.

Lemma utoa_two_digits (n : Z) :
  10 <= n < 100 ->
  strconv.utoa n =
  String (strconv.digit_char (n / 10))
    (String (strconv.digit_char (n mod 10)) EmptyString).
Proof.
  intros Hn. unfold strconv.utoa.
  assert (3 <= Z.log2 n) as Hlog.
  { change 3 with (Z.log2 8). apply Z.log2_le_mono. lia. }
  destruct (Z.to_nat (Z.log2 n)) as [|k] eqn:Hk; [lia|].
  cbn [strconv.utoa_aux].
  assert ((n <? 10) = false) as -> by lia.
  assert (0 <= n / 10 < 10) as Hq.
  { split; [apply Z.div_pos; lia | apply Z.div_lt_upper_bound; lia]. }
  assert ((n / 10 <? 10) = true) as -> by lia.
  now rewrite (Z.mod_small (n / 10)) by lia.
Qed.

Lemma itoa_nonneg (n : Z) : 0 <= n -> strconv.itoa n = strconv.utoa n.
Proof. intros Hn. unfold strconv.itoa. now assert ((n <? 0) = false) as -> by lia. Qed.

Lemma itoa_not_dot (n : Z) :
  0 <= n -> all_chars not_dot (strconv.itoa n) = true.
Proof.
  intros Hn. rewrite itoa_nonneg by assumption.
  destruct (utoa_spec n Hn) as (_ & Hdig & _).
  revert Hdig. apply all_chars_impl, is_digit_not_dot.
Qed.

(** ** [int] arithmetic *)

Lemma int_wrap_small (z : Z) : in_int z -> int_wrap z = z.
Proof.
  unfold in_int, minInt, maxInt, int_wrap. intros Hz.
  rewrite Z.mod_small; lia.
Qed.

Lemma int_wrap_add_l (a b : Z) : int_wrap (int_wrap a + b) = int_wrap (a + b).
Proof.
  unfold int_wrap. f_equal.
  replace ((a + 2 ^ 63) mod 2 ^ 64 - 2 ^ 63 + b + 2 ^ 63)
    with ((a + 2 ^ 63) mod 2 ^ 64 + b) by lia.
  rewrite Z.add_mod_idemp_l by lia. f_equal. lia.
Qed.

Lemma int_wrap_fixed (x d : Z) :
  0 < d < 2 ^ 64 -> int_wrap (x + d) <> x.
Proof.
  unfold int_wrap. intros Hd Heq.
  pose proof (Z.div_mod (x + d + 2 ^ 63) (2 ^ 64) ltac:(lia)) as Hdm.
  pose proof (Z.mod_pos_bound (x + d + 2 ^ 63) (2 ^ 64) ltac:(lia)) as Hb.
  set (k := (x + d + 2 ^ 63) / 2 ^ 64) in *.
  set (m := (x + d + 2 ^ 63) mod 2 ^ 64) in *.
  assert (d = 2 ^ 64 * k) by lia. lia.
Qed.

(** ** [parsePrice], by the shape of its input *)

Lemma parsePrice_whole (s : string) :
  all_chars not_dot s = true ->
  parsePrice s =
  (let! i := strconv.ParseInt s in Ok (int_wrap (i * 100))).
Proof.
  intros Hs. unfold parsePrice, gostrings.SplitN2.
  rewrite cut_no_sep by assumption. reflexivity.
Qed.

Lemma parsePrice_frac (w f : string) :
  all_chars not_dot w = true ->
  parsePrice (String.append w (String "." f)) =
  (let! a := strconv.ParseInt w in
   let! b := strconv.ParseInt (pad_cents f) in
   Ok (int_wrap (a * 100 + b))).
Proof.
  intros Hw. unfold parsePrice, gostrings.SplitN2.
  rewrite cut_first_sep by assumption. cbn [nth].
  destruct (strconv.ParseInt w) as [a|e]; [|reflexivity]. cbn [bind].
  destruct (strconv.ParseInt (pad_cents f)) as [b|e]; [|reflexivity]. cbn [bind].
  now rewrite int_wrap_add_l.
Qed.

Lemma ParseInt_padded_digit (d : Z) :
  0 <= d < 10 ->
  strconv.ParseInt (pad_cents (strconv.itoa d)) = Ok (d * 10).
Proof.
  intros Hd. rewrite itoa_nonneg, utoa_small by lia.
  assert (d = 0 \/ d = 1 \/ d = 2 \/ d = 3 \/ d = 4 \/ d = 5 \/ d = 6 \/
          d = 7 \/ d = 8 \/ d = 9) as Hc by lia.
  repeat (destruct Hc as [-> | Hc]; [reflexivity|]). now subst.
Qed.

Lemma ParseInt_two_digits (n : Z) :
  10 <= n < 100 ->
  strconv.ParseInt (pad_cents (strconv.itoa n)) = Ok n.
Proof.
  intros Hn. unfold pad_cents.
  rewrite itoa_nonneg, utoa_two_digits by lia. cbn [String.length Nat.eqb].
  rewrite <- utoa_two_digits, <- itoa_nonneg by lia.
  apply ParseInt_itoa. unfold maxInt. lia.
Qed.

(** [formatPrice] on a non-negative price, with [/] and [mod]. *)
Lemma formatPrice_nonneg (x : Z) :
  0 <= x ->
  formatPrice x =
  if x mod 100 =? 0 then strconv.itoa (x / 100)
  else String.append (strconv.itoa (x / 100))
         (String "." (strconv.itoa
            (if (x mod 100) mod 10 =? 0 then (x mod 100) / 10 else x mod 100))).
Proof.
  intros Hx. unfold formatPrice.
  rewrite Z.rem_mod_nonneg, Z.quot_div_nonneg by lia.
  pose proof (Z.mod_pos_bound x 100 ltac:(lia)) as Hr.
  rewrite Z.rem_mod_nonneg, Z.quot_div_nonneg by lia.
  destruct (x mod 100 =? 0) eqn:H0.
  - assert ((0 <? x mod 100) = false) as -> by lia. reflexivity.
  - assert ((0 <? x mod 100) = true) as -> by lia. reflexivity.
Qed.

(** C7. For a non-negative price [x] (a Go [int]) whose cents [x mod 100]
    are 0 or at least 10, [parsePrice (formatPrice x)] is [x]; for cents
    1 to 9 the two functions do not give [x] back, the leading zero of the
    cents being dropped: 21305 is printed "213.5", which is read as
    21350. *)
Theorem parsePrice_formatPrice (x : Z) :
  0 <= x <= maxInt ->
  (x mod 100 = 0 \/ 10 <= x mod 100 -> parsePrice (formatPrice x) = Ok x) /\
  (1 <= x mod 100 <= 9 ->
   parsePrice (formatPrice x) = Ok (int_wrap (x + 9 * (x mod 100))) /\
   int_wrap (x + 9 * (x mod 100)) <> x) /\
  formatPrice 21305 = "213.5"%string /\
  parsePrice "213.5" = Ok 21350.
Proof.
  intros Hx.
  pose proof (Z.div_mod x 100 ltac:(lia)) as Hdm.
  pose proof (Z.mod_pos_bound x 100 ltac:(lia)) as Hr.
  assert (0 <= x / 100 <= maxInt) as Hq.
  { unfold maxInt in *. split; [apply Z.div_pos; lia|].
    apply Z.lt_succ_r, Z.div_lt_upper_bound; lia. }
  assert (in_int x) as Hin by (unfold in_int, minInt, maxInt in *; lia).
  rewrite formatPrice_nonneg by lia.
  split; [|split; [|split; vm_compute; reflexivity]].
  - intros [H0 | H10].
    + assert ((x mod 100 =? 0) = true) as -> by lia.
      rewrite parsePrice_whole by (apply itoa_not_dot; lia).
      rewrite ParseInt_itoa by assumption. cbn [bind].
      rewrite int_wrap_small; [f_equal; lia|].
      replace (x / 100 * 100) with x by lia. assumption.
    + assert ((x mod 100 =? 0) = false) as -> by lia.
      rewrite parsePrice_frac by (apply itoa_not_dot; lia).
      rewrite ParseInt_itoa by assumption. cbn [bind].
      pose proof (Z.div_mod (x mod 100) 10 ltac:(lia)) as Hdm'.
      pose proof (Z.mod_pos_bound (x mod 100) 10 ltac:(lia)) as Hr'.
      destruct ((x mod 100) mod 10 =? 0) eqn:Hten.
      * rewrite ParseInt_padded_digit
          by (split; [apply Z.div_pos; lia | apply Z.div_lt_upper_bound; lia]).
        cbn [bind].
        replace (x / 100 * 100 + x mod 100 / 10 * 10) with x by lia.
        now rewrite int_wrap_small.
      * rewrite ParseInt_two_digits by lia. cbn [bind].
        replace (x / 100 * 100 + x mod 100) with x by lia.
        now rewrite int_wrap_small.
  - intros H19.
    assert ((x mod 100 =? 0) = false) as -> by lia.
    rewrite (Z.mod_small (x mod 100) 10) by lia.
    assert ((x mod 100 =? 0) = false) as -> by lia.
    rewrite parsePrice_frac by (apply itoa_not_dot; lia).
    rewrite ParseInt_itoa by assumption. cbn [bind].
    rewrite ParseInt_padded_digit by lia. cbn [bind].
    replace (x / 100 * 100 + x mod 100 * 10) with (x + 9 * (x mod 100)) by lia.
    split; [reflexivity|]. apply int_wrap_fixed. lia.
Qed.

Lemma parsePrice_formatPrice_witness :
  parsePrice (formatPrice 21382) = Ok 21382 /\
  parsePrice (formatPrice 21305) <> Ok 21305.
Proof.
  assert (0 <= 21382 <= maxInt) as H1 by (unfold maxInt; lia).
  assert (0 <= 21305 <= maxInt) as H2 by (unfold maxInt; lia).
  split.
  - apply (proj1 (parsePrice_formatPrice 21382 H1)). right. vm_compute. discriminate.
  - destruct (proj1 (proj2 (parsePrice_formatPrice 21305 H2))) as [Heq Hne].
    + vm_compute. split; discriminate.
    + rewrite Heq. intros E. apply Hne. now injection E.
Defined.

(** ** The price codec against its specification *)

Lemma parsePrice_refines (text : string) :
  parsePrice text = parsePrice_spec text.
Proof.
  unfold parsePrice, parsePrice_spec, gostrings.SplitN2.
  destruct (gostrings.cut "." text) as [whole [frac|]]; cbn [nth].
  - destruct (strconv.ParseInt whole) as [a|e]; [|reflexivity]. cbn [bind].
    destruct (strconv.ParseInt (pad_cents frac)) as [b|e]; [|reflexivity].
    cbn [bind]. now rewrite int_wrap_add_l.
  - reflexivity.
Qed.

Lemma formatPrice_refines (price : Z) :
  0 <= price -> formatPrice price = formatPrice_spec price.
Proof.
  intros Hp. unfold formatPrice, formatPrice_spec.
  pose proof (Z.rem_bound_pos price 100 Hp ltac:(lia)) as Hr.
  destruct (Z.rem price 100 =? 0) eqn:H0.
  - now assert ((0 <? Z.rem price 100) = false) as -> by lia.
  - assert ((0 <? Z.rem price 100) = true) as -> by lia.
    now destruct (Z.rem (Z.rem price 100) 10 =? 0).
Qed.

(** C8, as it is worded, fails on the code in three places. A price below
    zero is printed without its cents, whatever its remainder: -150 has the
    remainder -50, a multiple of 10 that is not 0, and is printed "-1". A
    fraction that is a lone sign is not a base-10 integer, yet it is padded
    to a signed zero, which [ParseInt] accepts: "5.-" is read as 500. The
    product of the whole part and 100 is not tested for overflow:
    "92233720368547759" is read as a negative price. *)
Lemma price_codec_counterexample :
  (Z.rem (-150) 100 = -50 /\
   formatPrice (-150) = "-1"%string /\
   formatPrice_spec (-150) = "-1.-5"%string /\
   formatPrice (-150) <> formatPrice_spec (-150)) /\
  (strconv.ParseInt "-" = Err (NumError "-") /\
   parsePrice "5.-" = Ok 500) /\
  (strconv.ParseInt "92233720368547759" = Ok 92233720368547759 /\
   parsePrice "92233720368547759" = Ok (-9223372036854775716) /\
   92233720368547759 * 100 + 0 <> -9223372036854775716).
Proof.
  split; [|split].
  - split; [reflexivity|]. split; [vm_compute; reflexivity|].
    split; [vm_compute; reflexivity|]. vm_compute. discriminate.
  - split; vm_compute; reflexivity.
  - split; [vm_compute; reflexivity|]. split; [vm_compute; reflexivity|].
    vm_compute. discriminate.
Qed.

(** ** The reader *)

Lemma read_line_failure (timeParse : string -> result Z) (nouts : nat)
    (text : string) (e : error) :
  parse timeParse text = Err e ->
  read_line timeParse nouts text =
  ReadErr e :: map (fun out => ReadSend out None) (seq 0 nouts).
Proof. intros H. unfold read_line. rewrite H. reflexivity. Qed.

(** C2, on the code. A line that does not parse is reported on the error
    channel and the nil line is then sent to every output all the same;
    the lines after it are read, parsed and sent in the same way. *)
Theorem read_forwards_failed_line (timeParse : string -> result Z)
    (nouts : nat) (text : string) (texts : list string) :
  read_line timeParse nouts text =
    match parse timeParse text with
    | Ok line => map (fun out => ReadSend out (Some line)) (seq 0 nouts)
    | Err e => ReadErr e :: map (fun out => ReadSend out None) (seq 0 nouts)
    end /\
  read timeParse (text :: texts) None nouts =
    read_line timeParse nouts text ++ read timeParse texts None nouts /\
  read timeParse ["garbage"; "SBER,x,100,2019-01-30 06:59:45"]%string None 2 =
    [ReadErr ErrInvalidLineFormat; ReadSend 0 None; ReadSend 1 None;
     ReadErr (NumError "x"); ReadSend 0 None; ReadSend 1 None;
     ReadClose 0; ReadClose 1]%nat.
Proof.
  split; [|split].
  - unfold read_line. now destruct (parse timeParse text).
  - unfold read. cbn [flat_map]. now rewrite <- app_assoc.
  - reflexivity.
Qed.

(** ** The writer *)

Section WriterProperties.

Context {W : Type}.
Variable Fwrite : W -> string -> W * option error.
Variable formatTime : Z -> string.

Lemma write_loop_trace (cs : list Candle) : forall w : W,
  let evs := (write_loop W Fwrite formatTime w cs).2 in
  written_records evs = map (candle_record formatTime) cs /\
  reported_errors evs = write_failures Fwrite formatTime w cs /\
  completions evs = 0%nat.
Proof.
  induction cs as [|candle cs IH]; intros w; [now cbn|].
  cbn [write_loop write_failures].
  destruct (Fwrite w (candle_record formatTime candle)) as [w1 err].
  specialize (IH w1). cbn zeta in IH.
  destruct (write_loop W Fwrite formatTime w1 cs) as [w2 evs].
  cbn [snd] in *. destruct IH as (Hrec & Herr & Hdone).
  unfold written_records, reported_errors, completions in *.
  destruct err as [e|]; cbn; rewrite ?Hrec, ?Herr; repeat split; auto.
Qed.

End WriterProperties.

(** C9. The writer hands one record to its [io.Writer] for each candle it
    receives, in order; a failed write is reported on the error channel
    and the candles after it are written all the same; once the input is
    exhausted, completion is signalled, once, as the last action. *)
Theorem write_drains_input (W : Type) (Fwrite : W -> string -> W * option error)
    (formatTime : Z -> string) (w : W) (cs : list Candle) :
  let evs := (write W Fwrite formatTime w cs).2 in
  written_records evs = map (candle_record formatTime) cs /\
  reported_errors evs = write_failures Fwrite formatTime w cs /\
  completions evs = 1%nat /\
  last evs = Some WriteDone.
Proof.
  unfold write.
  pose proof (write_loop_trace Fwrite formatTime cs w) as H. cbn zeta in H.
  destruct (write_loop W Fwrite formatTime w cs) as [w' evs]. cbn [snd] in *.
  destruct H as (Hrec & Herr & Hdone).
  unfold written_records, reported_errors, completions in *.
  rewrite !flat_map_app, length_app, Hrec, Herr, Hdone. cbn.
  rewrite !app_nil_r, last_snoc. auto.
Qed.

(** ** The loop "adjust interval" *)

Ltac case_if :=
  match goal with
  | |- context [if ?b then _ else _] => destruct b eqn:?
  end.

Lemma durations :
  24 * Hour = 86400000000000 /\ TradesStart = 25200000000000 /\
  TradesDuration = 61200000000000.
Proof. repeat split. Qed.

Lemma adjust_step_keeps (span : Z) (st : pstate) :
  candles (adjust_step span st) = candles st /\
  out (adjust_step span st) = out st.
Proof. unfold adjust_step. destruct (r st =? max st); split; reflexivity. Qed.

Lemma adjust_step_session (span : Z) (st : pstate) :
  session_ok st -> session_ok (adjust_step span st).
Proof.
  unfold session_ok, adjust_step. destruct durations as (HD & HS & HT).
  intros H. destruct (r st =? max st); cbn [day max]; lia.
Qed.

Section Adjust.

Variables span ts : Z.
Hypothesis span_pos : 0 < span.

Lemma windows_left_nonneg (st : pstate) : 0 <= windows_left span st.
Proof.
  unfold windows_left.
  destruct (r st =? max st) eqn:E1; [lia|].
  destruct (max st <? r st) eqn:E2; [lia|].
  apply Z.div_pos; lia.
Qed.

Lemma adjust_bound_nonneg (st : pstate) : 0 <= adjust_bound span ts st.
Proof.
  unfold adjust_bound, days_ahead.
  pose proof (windows_left_nonneg st).
  assert (0 <= TradesDuration / span)
    by (apply Z.div_pos; [vm_compute; discriminate | lia]).
  nia.
Qed.

(** An iteration of the loop takes one off the bound, at least. *)
Lemma adjust_bound_step (st : pstate) :
  session_ok st -> r st < ts ->
  adjust_bound span ts (adjust_step span st) + 1 <= adjust_bound span ts st.
Proof.
  intros Hinv Hlt. unfold session_ok in Hinv.
  destruct durations as (HD & HS & HT).
  assert (0 <= TradesDuration / span) as HK by (apply Z.div_pos; lia).
  unfold adjust_bound, days_ahead, windows_left, adjust_step.
  destruct (r st =? max st) eqn:Ejump; cbn [day l r max].
  - (* the window end is the session end: the next session *)
    rewrite HD, HS in *.
    replace (ts - (day st + 86400000000000 + 25200000000000 + TradesDuration)
             + 86400000000000 - 1)
      with (ts - max st + 86400000000000 - 1 + (-1) * 86400000000000) by lia.
    rewrite Z.div_add by lia.
    assert (1 <= (ts - max st + 86400000000000 - 1) / 86400000000000) as Hd
      by (apply Z.div_le_lower_bound; lia).
    rewrite !Z.max_r by lia.
    match goal with
    | |- _ * _ + ?w + 1 <= _ =>
        assert (w <= TradesDuration / span + 1) as Hwl
    end.
    { case_if; [lia|]. case_if; [lia|].
      transitivity (TradesDuration / span); [|lia].
      apply Z.div_le_mono; lia. }
    nia.
  - destruct (max st <? r st) eqn:Eover.
    + (* the window end is past the session end: it is clipped *)
      assert ((max st <? r st + span) = true) as -> by lia.
      rewrite Z.eqb_refl. lia.
    + assert (r st < max st) as Hrm by lia.
      assert (1 <= (max st - r st + span - 1) / span) as Hone
        by (apply Z.div_le_lower_bound; lia).
      destruct (max st <? r st + span) eqn:Eclip.
      * rewrite Z.eqb_refl. lia.
      * destruct (r st + span =? max st) eqn:Eend; [lia|].
        assert ((max st <? r st + span) = false) as -> by lia.
        replace (max st - (r st + span) + span - 1)
          with (max st - r st + span - 1 + (-1) * span) by lia.
        rewrite Z.div_add by lia. lia.
Qed.

(** With a positive span the loop comes to an end within its bound, the
    window end no longer before the timestamp. *)
Lemma adjust_terminates (fuel : nat) : forall st,
  session_ok st ->
  adjust_bound span ts st < Z.of_nat fuel ->
  exists st', adjust fuel span ts st = Some st' /\ ts <= r st' /\
              session_ok st'.
Proof.
  induction fuel as [|fuel IH]; intros st Hinv Hb; cbn [adjust];
    destruct (r st <? ts) eqn:Hlt.
  - pose proof (adjust_bound_nonneg st). lia.
  - exists st. repeat split; [lia | assumption].
  - apply IH; [now apply adjust_step_session|].
    pose proof (adjust_bound_step st Hinv ltac:(lia)). lia.
  - exists st. repeat split; [lia | assumption].
Qed.

Lemma adjust_fuel_enough (st : pstate) :
  session_ok st ->
  exists st', adjust (adjust_fuel span ts st) span ts st = Some st' /\
              ts <= r st' /\ session_ok st'.
Proof.
  intros Hinv. apply adjust_terminates; [assumption|].
  unfold adjust_fuel. pose proof (adjust_bound_nonneg st). lia.
Qed.

End Adjust.

Lemma adjust_keeps (fuel : nat) (span ts : Z) : forall st st',
  adjust fuel span ts st = Some st' ->
  candles st' = candles st /\ out st' = out st.
Proof.
  induction fuel as [|fuel IH]; intros st st'; cbn [adjust];
    destruct (r st <? ts); try discriminate.
  - intros [= <-]. auto.
  - intros H. apply IH in H as [Hc Ho].
    destruct (adjust_step_keeps span st) as [Hc' Ho']. split; congruence.
  - intros [= <-]. auto.
Qed.

(** With a span that is not positive the loop, once entered before the
    session end, runs for ever: no bound is enough. *)
Lemma adjust_runs_on (span ts : Z) (fuel : nat) : forall st,
  span <= 0 -> r st < max st -> r st < ts ->
  adjust fuel span ts st = None.
Proof.
  induction fuel as [|fuel IH]; intros st Hs Hrm Hlt; cbn [adjust];
    assert ((r st <? ts) = true) as -> by lia; [reflexivity|].
  apply IH; [assumption | |]; unfold adjust_step;
    assert ((r st =? max st) = false) as -> by lia; cbn [r max];
    assert ((max st <? r st + span) = false) as -> by lia; lia.
Qed.

(** ** Every run of [process] with a positive span comes to an end *)

Lemma process_first_session (span : Z) (line : Line) :
  session_ok (process_first span line).
Proof.
  unfold session_ok, process_first. cbn [day max].
  destruct durations as (HD & HS & HT). lia.
Qed.

Lemma process_line_total (span : Z) (st : pstate) (line : Line) :
  0 < span -> session_ok st ->
  exists st', process_line span st line = Some st' /\ session_ok st'.
Proof.
  intros Hs Hinv. unfold process_line.
  destruct (Timestamp line <? l st); [eauto|].
  destruct ((r st <? Timestamp line) || (Timestamp line =? r st)); [|eauto].
  destruct (adjust_fuel_enough span (Timestamp line) Hs (flush st) Hinv)
    as (st2 & -> & _ & Hinv2). eauto.
Qed.

Lemma process_loop_total (span : Z) (lines : list Line) : forall st,
  0 < span -> session_ok st ->
  exists st', process_loop span st lines = Some st'.
Proof.
  induction lines as [|line lines IH]; intros st Hs Hinv; cbn [process_loop];
    [eauto|].
  destruct (process_line_total span st line Hs Hinv) as (st1 & -> & Hinv1).
  now apply IH.
Qed.

Lemma process_total (span : Z) (lines : list Line) :
  0 < span -> exists cs, process span lines = Some cs.
Proof.
  intros Hs. destruct lines as [|line lines]; cbn [process]; [eauto|].
  destruct (process_loop_total span lines (process_first span line) Hs
              (process_first_session span line)) as [st ->]. eauto.
Qed.

(** ** The prices of a candle are ordered *)

Lemma newCandle_ok (ts : Z) (ticker : string) (price : Z) :
  candle_ok (newCandle ts ticker price).
Proof. unfold candle_ok, newCandle. cbn. lia. Qed.

Lemma update_candle_ok (c : Candle) (price : Z) :
  candle_ok c -> candle_ok (update_candle c price).
Proof.
  unfold candle_ok, update_candle. intros H.
  destruct (price <? PriceMin c) eqn:E1; cbn [PriceMax];
    case_if; cbn; lia.
Qed.

Create HintDb candle.
#[local] Hint Resolve newCandle_ok update_candle_ok : candle.

Lemma flush_ok (st : pstate) : state_ok st -> state_ok (flush st).
Proof.
  unfold state_ok, flush. cbn [candles out]. intros [Hm Ho]. split.
  - apply map_Forall_empty.
  - apply Forall_app. split; [assumption|].
    apply Forall_fmap. apply map_Forall_to_list in Hm.
    eapply Forall_impl; [exact Hm|]. now intros [k c].
Qed.

Lemma aggregate_ok (st : pstate) (line : Line) :
  state_ok st -> state_ok (aggregate st line).
Proof.
  unfold state_ok, aggregate. cbn [candles out]. intros [Hm Ho].
  split; [|assumption]. apply map_Forall_insert_2; [|assumption].
  destruct (candles st !! Ticker line) as [c|] eqn:E; eauto with candle.
Qed.

Lemma process_line_ok (span : Z) (st st' : pstate) (line : Line) :
  process_line span st line = Some st' -> state_ok st -> state_ok st'.
Proof.
  unfold process_line. intros H Hok.
  destruct (Timestamp line <? l st); [now injection H as <-|].
  destruct ((r st <? Timestamp line) || (Timestamp line =? r st)).
  - destruct (adjust _ span _ (flush st)) as [st2|] eqn:E; [|discriminate].
    injection H as <-. apply aggregate_ok.
    apply adjust_keeps in E as [Hc Ho]. apply flush_ok in Hok.
    unfold state_ok in *. now rewrite Hc, Ho.
  - injection H as <-. now apply aggregate_ok.
Qed.

Lemma process_loop_ok (span : Z) (lines : list Line) : forall st st',
  process_loop span st lines = Some st' -> state_ok st -> state_ok st'.
Proof.
  induction lines as [|line lines IH]; intros st st'; cbn [process_loop].
  - now intros [= <-].
  - destruct (process_line span st line) as [st1|] eqn:E; [|discriminate].
    intros H Hok. apply (IH _ _ H). now apply (process_line_ok _ _ _ _ E).
Qed.

Lemma process_first_ok (span : Z) (line : Line) :
  state_ok (process_first span line).
Proof.
  unfold state_ok, process_first. cbn [candles out]. split; [|constructor].
  case_if; [apply map_Forall_empty|].
  apply map_Forall_singleton. auto with candle.
Qed.

(** C6. Every candle satisfies [PriceMin <= PriceStart <= PriceMax] and
    [PriceMin <= PriceEnd <= PriceMax]: a new candle has its four prices
    equal, an update keeps the order, and so it holds of every candle in the
    map of the aggregator after each line, of every candle sent by then, and
    of every candle of the output; with a positive span the aggregator
    does produce its output. *)
Theorem candle_prices_ordered (span : Z) (lines : list Line) :
  (forall ts ticker price,
     let c := newCandle ts ticker price in
     PriceStart c = price /\ PriceMax c = price /\
     PriceMin c = price /\ PriceEnd c = price) /\
  (forall c price, candle_ok c -> candle_ok (update_candle c price)) /\
  (forall st, process_state span lines = Some st ->
     map_Forall (fun _ c => candle_ok c) (candles st) /\
     Forall candle_ok (out st)) /\
  (forall cs, process span lines = Some cs ->
     Forall (fun c => PriceMin c <= PriceStart c <= PriceMax c /\
                      PriceMin c <= PriceEnd c <= PriceMax c /\
                      PriceMin c <= PriceMax c) cs) /\
  (0 < span -> exists cs, process span lines = Some cs).
Proof.
  split; [intros; cbn; auto|].
  split; [apply update_candle_ok|].
  assert (forall st, process_state span lines = Some st -> state_ok st) as Hst.
  { destruct lines as [|line lines]; cbn [process_state]; [discriminate|].
    intros st H. apply (process_loop_ok _ _ _ _ H), process_first_ok. }
  split; [exact Hst|]. split; [|apply process_total].
  destruct lines as [|line lines]; cbn [process process_state] in *.
  - intros cs [= <-]. constructor.
  - intros cs H.
    destruct (process_loop span (process_first span line) lines) as [st|] eqn:E;
      [|discriminate].
    injection H as <-. specialize (Hst st eq_refl). apply flush_ok in Hst.
    destruct Hst as [_ Ho]. cbn [flush out] in Ho.
    eapply Forall_impl; [exact Ho|]. unfold candle_ok. intros c. cbv beta. lia.
Qed.

Lemma candle_prices_ordered_witness :
  exists cs,
    process (5 * Minute)
      [mkLine "AAPL" (clock 17926 7 0 2 949487000) 16320 0;
       mkLine "AAPL" (clock 17926 7 7 33 21484000) 16148 0] = Some cs /\
    Forall (fun c => PriceMin c <= PriceStart c <= PriceMax c /\
                     PriceMin c <= PriceEnd c <= PriceMax c /\
                     PriceMin c <= PriceMax c) cs.
Proof.
  destruct (candle_prices_ordered (5 * Minute)
              [mkLine "AAPL" (clock 17926 7 0 2 949487000) 16320 0;
               mkLine "AAPL" (clock 17926 7 7 33 21484000) 16148 0])
    as (_ & _ & _ & Hout & Htotal).
  destruct Htotal as [cs Hcs]; [reflexivity|].
  exists cs. split; [exact Hcs | exact (Hout cs Hcs)].
Defined.

(** ** The lines of one window *)

Lemma fold_left_min_spec (ps : list Z) : forall p,
  In (fold_left Z.min ps p) (p :: ps) /\
  Forall (fun x => fold_left Z.min ps p <= x) (p :: ps).
Proof.
  induction ps as [|q ps IH]; intros p; cbn [fold_left].
  - split; [now left | repeat constructor; lia].
  - destruct (IH (Z.min p q)) as [Hin Hall].
    apply Forall_cons in Hall as [Hhd Hall]. split.
    + destruct Hin as [Heq | Hin]; [|right; now right].
      rewrite <- Heq. destruct (Z.min_spec p q) as [[_ ->] | [_ ->]];
        [now left | right; now left].
    + repeat (apply Forall_cons; split); [lia | lia | assumption].
Qed.

Lemma fold_left_max_spec (ps : list Z) : forall p,
  In (fold_left Z.max ps p) (p :: ps) /\
  Forall (fun x => x <= fold_left Z.max ps p) (p :: ps).
Proof.
  induction ps as [|q ps IH]; intros p; cbn [fold_left].
  - split; [now left | repeat constructor; lia].
  - destruct (IH (Z.max p q)) as [Hin Hall].
    apply Forall_cons in Hall as [Hhd Hall]. split.
    + destruct Hin as [Heq | Hin]; [|right; now right].
      rewrite <- Heq. destruct (Z.max_spec p q) as [[_ ->] | [_ ->]];
        [right; now left | now left].
    + repeat (apply Forall_cons; split); [lia | lia | assumption].
Qed.

Lemma update_candle_of (start : Z) (k : string) (p : Z) (qs : list Z) (x : Z) :
  update_candle (candle_of start k p qs) x = candle_of start k p (qs ++ [x]).
Proof.
  unfold update_candle, candle_of. cbn [PriceMin PriceMax CandleTicker Start
    PriceStart PriceEnd].
  rewrite !fold_left_app, List.last_last. cbn [fold_left].
  destruct (x <? fold_left Z.min qs p) eqn:E1; cbn [PriceMin PriceMax
    CandleTicker Start PriceStart PriceEnd];
    destruct (fold_left Z.max qs p <? x) eqn:E2; cbn [PriceMin PriceMax
    CandleTicker Start PriceStart PriceEnd]; f_equal; lia.
Qed.

Lemma fold_open_step (start : Z) (k : string) (ps : list Z) : forall p qs,
  fold_left (open_step start k) ps (Some (candle_of start k p qs)) =
  Some (candle_of start k p (qs ++ ps)).
Proof.
  induction ps as [|x ps IH]; intros p qs; cbn [fold_left].
  - now rewrite app_nil_r.
  - unfold open_step at 2. rewrite update_candle_of, IH.
    now rewrite <- app_assoc.
Qed.

Lemma fold_open_step_fresh (start : Z) (k : string) (p : Z) (ps : list Z) :
  fold_left (open_step start k) (p :: ps) None = Some (candle_of start k p ps).
Proof.
  cbn [fold_left]. unfold open_step at 2.
  change (newCandle start k p) with (candle_of start k p []).
  apply fold_open_step.
Qed.

Lemma aggregate_lookup (st : pstate) (line : Line) (k : string) :
  candles (aggregate st line) !! k =
  if decide (Ticker line = k)
  then open_step (l st) k (candles st !! k) (Price line)
  else candles st !! k.
Proof.
  unfold aggregate. cbn [candles]. destruct (decide (Ticker line = k)) as [<-|Hne].
  - rewrite lookup_insert_eq. unfold open_step.
    now destruct (candles st !! Ticker line).
  - now rewrite lookup_insert_ne.
Qed.

Lemma prices_of_cons (k : string) (line : Line) (lines : list Line) :
  prices_of k (line :: lines) =
  if decide (Ticker line = k) then Price line :: prices_of k lines
  else prices_of k lines.
Proof.
  unfold prices_of. rewrite filter_cons.
  now destruct (decide (Ticker line = k)).
Qed.

(** Lines inside the current window leave the window and the output as
    they are and fold into the candle of their ticker. *)
Lemma process_loop_in_window (span : Z) (lines : list Line) : forall st,
  Forall (fun line => l st <= Timestamp line < r st) lines ->
  exists st', process_loop span st lines = Some st' /\
              same_window st st' /\ out st' = out st /\
              forall k, candles st' !! k =
                        fold_left (open_step (l st) k) (prices_of k lines)
                          (candles st !! k).
Proof.
  induction lines as [|line lines IH]; intros st Hall; cbn [process_loop].
  - exists st. unfold same_window. repeat split; reflexivity.
  - apply Forall_cons in Hall as [Hline Hall].
    unfold process_line.
    assert ((Timestamp line <? l st) = false) as -> by lia.
    assert ((r st <? Timestamp line) || (Timestamp line =? r st) = false)
      as -> by (apply orb_false_iff; lia).
    destruct (IH (aggregate st line) Hall) as (st' & Hrun & Hwin & Hout & Hcs).
    exists st'. split; [exact Hrun|]. split; [exact Hwin|].
    split; [exact Hout|]. intros k. rewrite Hcs, aggregate_lookup.
    rewrite prices_of_cons. cbn [aggregate l].
    now destruct (decide (Ticker line = k)).
Qed.

Lemma fold_open_step_ticker (start : Z) (k : string) (ps : list Z) :
  forall oc c,
  (forall c0, oc = Some c0 -> CandleTicker c0 = k) ->
  fold_left (open_step start k) ps oc = Some c -> CandleTicker c = k.
Proof.
  induction ps as [|x ps IH]; intros oc c Hoc; cbn [fold_left].
  - intros ->. now apply Hoc.
  - apply IH. unfold open_step. intros c0 [= <-].
    destruct oc as [c1|]; [|reflexivity].
    unfold update_candle. cbn [CandleTicker].
    destruct (x <? PriceMin c1); cbn [CandleTicker PriceMax];
      case_if; cbn [CandleTicker]; now apply Hoc.
Qed.

(** The lines of the first window, the first line of the input among
    them. *)
Lemma process_first_window (span : Z) (first : Line) (rest : list Line)
    (k : string) (p : Z) (ps : list Z) :
  let start := midnight (Timestamp first) + TradesStart in
  Forall (fun line => start <= Timestamp line < start + span) (first :: rest) ->
  prices_of k (first :: rest) = p :: ps ->
  exists cs, process span (first :: rest) = Some cs /\
             candle_of start k p ps ∈ cs /\
             forall c, c ∈ cs -> CandleTicker c = k -> c = candle_of start k p ps.
Proof.
  intros start Hall Hps. apply Forall_cons in Hall as [Hfirst Hall].
  destruct (process_loop_in_window span rest (process_first span first) Hall)
    as (st' & Hrun & _ & Hout & Hcs).
  cbn [process]. rewrite Hrun, Hout. cbn [process_first out app].
  eexists. split; [reflexivity|].
  cbn [process_first l candles] in Hcs. fold start in Hcs.
  assert ((Timestamp first <? start) = false) as Hin by lia.
  rewrite Hin in Hcs.
  assert (forall k', forall c, candles st' !! k' = Some c -> CandleTicker c = k')
    as Hkeys.
  { intros k' c. rewrite Hcs. apply fold_open_step_ticker.
    intros c0. destruct (decide (Ticker first = k')) as [<-|Hne].
    - rewrite lookup_singleton_eq. now intros [= <-].
    - rewrite lookup_singleton_ne by assumption. discriminate. }
  assert (candles st' !! k = Some (candle_of start k p ps)) as Hk.
  { rewrite Hcs. rewrite prices_of_cons in Hps.
    destruct (decide (Ticker first = k)) as [<-|Hne].
    - injection Hps as <- <-. rewrite lookup_singleton_eq.
      change (newCandle start (Ticker first) (Price first))
        with (candle_of start (Ticker first) (Price first) []).
      apply fold_open_step.
    - rewrite lookup_singleton_ne, Hps by assumption.
      apply fold_open_step_fresh. }
  split.
  - apply list_elem_of_fmap. exists (k, candle_of start k p ps).
    split; [reflexivity|]. now apply elem_of_map_to_list.
  - intros c Hc Hticker. apply list_elem_of_fmap in Hc as ([k' c'] & -> & Hc).
    apply elem_of_map_to_list in Hc. cbn [snd] in *.
    rewrite (Hkeys _ _ Hc) in Hticker. subst k'. congruence.
Qed.

(** The lines of a ticker [k] that come while the window of the state is
    [l, r), with timestamps in it, give a candle that starts at [l], opens
    at the price of the first of them, closes at the price of the last,
    and has the greatest and the least of their prices as its high and
    low. It is in the map when the window is over and is sent by the
    flush; when the window is the first of the input, it is the one candle
    of [k] in the output. Prices 16320, 16288, 16290 give open 16320, high
    16320, low 16288, close 16290. *)
Theorem window_candle (span : Z) (k : string) (p : Z) (ps : list Z) :
  let summary start :=
    {| CandleTicker := k; Start := start; PriceStart := p;
       PriceEnd := List.last ps p;
       PriceMin := fold_left Z.min ps p; PriceMax := fold_left Z.max ps p |} in
  (In (fold_left Z.max ps p) (p :: ps) /\
   Forall (fun x => x <= fold_left Z.max ps p) (p :: ps) /\
   In (fold_left Z.min ps p) (p :: ps) /\
   Forall (fun x => fold_left Z.min ps p <= x) (p :: ps)) /\
  (forall st lines,
     Forall (fun line => l st <= Timestamp line < r st) lines ->
     candles st !! k = None ->
     prices_of k lines = p :: ps ->
     exists st', process_loop span st lines = Some st' /\
                 candles st' !! k = Some (summary (l st)) /\
                 out st' = out st /\
                 summary (l st) ∈ out (flush st')) /\
  (forall first rest,
     let start := midnight (Timestamp first) + TradesStart in
     Forall (fun line => start <= Timestamp line < start + span) (first :: rest) ->
     prices_of k (first :: rest) = p :: ps ->
     exists cs, process span (first :: rest) = Some cs /\
                summary start ∈ cs /\
                forall c, c ∈ cs -> CandleTicker c = k -> c = summary start) /\
  process (5 * Minute)
    [mkLine "AAPL" (clock 17926 7 0 2 949487000) 16320 0;
     mkLine "AAPL" (clock 17926 7 0 9 838841000) 16288 0;
     mkLine "AAPL" (clock 17926 7 0 10 170781000) 16290 0] =
  Some [{| CandleTicker := "AAPL"; Start := clock 17926 7 0 0 0;
           PriceStart := 16320; PriceEnd := 16290;
           PriceMin := 16288; PriceMax := 16320 |}].
Proof.
  intros summary.
  split; [|split; [|split; [|vm_compute; reflexivity]]].
  - destruct (fold_left_max_spec ps p), (fold_left_min_spec ps p). auto.
  - intros st lines Hall Hfresh Hps.
    destruct (process_loop_in_window span lines st Hall)
      as (st' & Hrun & _ & Hout & Hcs).
    assert (candles st' !! k = Some (summary (l st))) as Hk.
    { rewrite Hcs, Hfresh, Hps. apply fold_open_step_fresh. }
    exists st'. split; [exact Hrun|]. split; [exact Hk|].
    split; [exact Hout|]. cbn [flush out].
    apply elem_of_app. right. apply list_elem_of_fmap.
    exists (k, summary (l st)). split; [reflexivity|].
    now apply elem_of_map_to_list.
  - intros first rest start. apply process_first_window.
Qed.

Lemma window_candle_witness :
  exists cs,
    process (30 * Minute)
      [mkLine "SBER" (clock 17926 7 0 1 53224000) 21380 0;
       mkLine "AAPL" (clock 17926 7 0 9 838841000) 16288 0;
       mkLine "SBER" (clock 17926 7 12 0 0) 21414 0] = Some cs /\
    {| CandleTicker := "SBER"; Start := clock 17926 7 0 0 0;
       PriceStart := 21380; PriceEnd := 21414;
       PriceMin := 21380; PriceMax := 21414 |} ∈ cs.
Proof.
  destruct (window_candle (30 * Minute) "SBER" 21380 [21414])
    as (_ & _ & Hfirst & _).
  destruct (Hfirst (mkLine "SBER" (clock 17926 7 0 1 53224000) 21380 0)
              [mkLine "AAPL" (clock 17926 7 0 9 838841000) 16288 0;
               mkLine "SBER" (clock 17926 7 12 0 0) 21414 0])
    as (cs & Hcs & Hin & _).
  - repeat constructor; vm_compute; discriminate.
  - reflexivity.
  - exists cs. split; [exact Hcs | exact Hin].
Defined.

(** ** Where the window advance departs from the half-open windows *)

Lemma adjust_at_end (fuel : nat) (span : Z) (st : pstate) :
  adjust fuel span (r st) st = Some st.
Proof. destruct fuel; cbn [adjust]; now rewrite Z.ltb_irrefl. Qed.

(** C1, on the code. A line whose timestamp is the window end [r] makes
    the aggregator flush, but "adjust interval" runs only while the
    timestamp is after [r], so the window stays where it is and the line
    opens a candle that starts at the [l] of the window just closed. With
    a span of five minutes, a line at 07:00:01 and a line at 07:05:00 leave
    the window at [07:00, 07:05) and give two candles that start at
    07:00. *)
Theorem line_at_window_end_keeps_window (span : Z) (st : pstate)
    (ticker : string) (price : Z) :
  let line := mkLine ticker (r st) price 0 in
  process_line span st line =
    (if r st <? l st then Some st else Some (aggregate (flush st) line)) /\
  (exists st',
     process_state (5 * Minute)
       [mkLine "AAPL" (clock 17926 7 0 1 0) 16288 0;
        mkLine "AAPL" (clock 17926 7 5 0 0) 16148 0] = Some st' /\
     l st' = clock 17926 7 0 0 0 /\ r st' = clock 17926 7 5 0 0 /\
     out st' = [newCandle (clock 17926 7 0 0 0) "AAPL" 16288] /\
     candles st' !! "AAPL"%string =
       Some (newCandle (clock 17926 7 0 0 0) "AAPL" 16148)).
Proof.
  intros line. split.
  - unfold process_line. subst line. cbn [Timestamp].
    destruct (r st <? l st); [reflexivity|].
    rewrite Z.eqb_refl, orb_true_r.
    change (r st) with (r (flush st)) at 2 3.
    now rewrite adjust_at_end.
  - eexists. split; [vm_compute; reflexivity|].
    repeat split; vm_compute; reflexivity.
Qed.

(** C3, on the code. On the lines 07:00:01, 07:05:00 and 07:06:00 of one
    ticker, in this order, with a span of five minutes, two of the three
    candles of the output are candles of that ticker that start at
    07:00: the line at the window end is in a candle of its own. *)
Theorem window_end_repeats_candle :
  let cs :=
    [newCandle (clock 17926 7 0 0 0) "AAPL" 16288;
     newCandle (clock 17926 7 0 0 0) "AAPL" 16148;
     newCandle (clock 17926 7 5 0 0) "AAPL" 16290] in
  process (5 * Minute)
    [mkLine "AAPL" (clock 17926 7 0 1 0) 16288 0;
     mkLine "AAPL" (clock 17926 7 5 0 0) 16148 0;
     mkLine "AAPL" (clock 17926 7 6 0 0) 16290 0] = Some cs /\
  ~ NoDup (map (fun c => (CandleTicker c, Start c)) cs).
Proof.
  intros cs. split; [vm_compute; reflexivity|].
  subst cs. cbn [map newCandle CandleTicker Start].
  intros [Hnotin _]%NoDup_cons. apply Hnotin. constructor.
Qed.

(** C4, on the code. The comparison with [l] is made before the window
    advance only. A line at 03:00 of the next day takes the window to the
    session of that day, which starts at 07:00, and is then put in a candle
    that starts at 07:00, four hours after the line. *)
Theorem line_before_next_session_kept :
  process (5 * Minute)
    [mkLine "AAPL" (clock 17926 7 0 1 0) 16288 0;
     mkLine "AAPL" (clock 17927 3 0 0 0) 16148 0] =
  Some [newCandle (clock 17926 7 0 0 0) "AAPL" 16288;
        newCandle (clock 17927 7 0 0 0) "AAPL" 16148] /\
  (exists st,
     process_state (5 * Minute)
       [mkLine "AAPL" (clock 17926 7 0 1 0) 16288 0;
        mkLine "AAPL" (clock 17927 3 0 0 0) 16148 0] = Some st /\
     l st = clock 17927 7 0 0 0 /\
     clock 17927 3 0 0 0 < l st /\
     candles st !! "AAPL"%string =
       Some (newCandle (clock 17927 7 0 0 0) "AAPL" 16148)).
Proof.
  split; [vm_compute; reflexivity|].
  eexists. split; [vm_compute; reflexivity|].
  repeat split; vm_compute; reflexivity.
Qed.

(** The test "filter" of the repository: a line before the session start
    is dropped when it is compared with [l]. *)
Example process_filter_test :
  process (5 * Minute)
    [mkLine "SBER" (clock 17926 6 59 45 249000) 21390 0;
     mkLine "SBER" (clock 17926 7 0 1 53224000) 21380 0] =
  Some [newCandle (clock 17926 7 0 0 0) "SBER" 21380].
Proof. vm_compute. reflexivity. Qed.

(** * Further properties of the code *)

(** ** The price codec at its edges *)

Lemma digits_val_not_digit (s : string) : forall n,
  all_chars not_dot s = false -> strconv.digits_val s n = None.
Proof.
  induction s as [|c s IH]; intros n; cbn [all_chars strconv.digits_val];
    [discriminate|].
  unfold not_dot at 1. destruct (Ascii.eqb_spec c "."%char) as [->|Hc].
  - reflexivity.
  - cbn [negb andb]. intros Hs. destruct (strconv.digit_val c); [|reflexivity].
    now apply IH.
Qed.

Lemma ParseInt_with_dot (s : string) :
  all_chars not_dot s = false -> strconv.ParseInt s = Err (NumError s).
Proof.
  destruct s as [|c rest]; [reflexivity|]. intros Hs.
  unfold strconv.ParseInt.
  destruct (Ascii.eqb c "+" || Ascii.eqb c "-") eqn:Hsign.
  - assert (all_chars not_dot rest = false) as Hrest.
    { cbn [all_chars] in Hs. apply andb_false_iff in Hs as [Hc|]; [|assumption].
      unfold not_dot in Hc. apply negb_false_iff, Ascii.eqb_eq in Hc. subst c.
      discriminate Hsign. }
    destruct rest as [|c' rest']; [reflexivity|].
    now rewrite digits_val_not_digit.
  - now rewrite digits_val_not_digit.
Qed.

Lemma pad_cents_with_dot (s : string) :
  all_chars not_dot s = false -> all_chars not_dot (pad_cents s) = false.
Proof.
  intros Hs. unfold pad_cents. case_if; [|assumption].
  rewrite all_chars_append, Hs. reflexivity.
Qed.

(** Cutting before a dot that is followed by nothing, or by a text with
    another dot in it. *)
Lemma cut_before_bad_tail (w t : string) :
  t = EmptyString \/ all_chars not_dot t = false ->
  exists a b, gostrings.cut "." (String.append w (String "." t)) = (a, Some b) /\
              (b = EmptyString \/ all_chars not_dot b = false).
Proof.
  intros Ht. induction w as [|c w IH]; simpl_append.
  - eauto.
  - destruct (Ascii.eqb c ".") eqn:Hc.
    + eexists _, _. split; [reflexivity|]. right.
      rewrite all_chars_append. cbn [all_chars]. unfold not_dot at 2.
      rewrite Ascii.eqb_refl. cbn. apply andb_false_r.
    + destruct IH as (a & b & -> & Hb). eauto.
Qed.

Lemma parsePrice_bad_tail (w t : string) :
  t = EmptyString \/ all_chars not_dot t = false ->
  exists e, parsePrice (String.append w (String "." t)) = Err e.
Proof.
  intros Ht. rewrite parsePrice_refines. unfold parsePrice_spec.
  destruct (cut_before_bad_tail w t Ht) as (a & b & -> & Hb).
  destruct (strconv.ParseInt a) as [i|e]; [|eauto]. cbn [bind].
  assert (strconv.ParseInt (pad_cents b) = Err (NumError (pad_cents b))) as ->.
  { destruct Hb as [-> | Hb]; [reflexivity|].
    now apply ParseInt_with_dot, pad_cents_with_dot. }
  cbn [bind]. eauto.
Qed.

(** X1. [parsePrice] refuses a text with nothing before its first dot,
    a text that ends in a dot, and a text with two dots. *)
Theorem parsePrice_rejects (w t u : string) :
  parsePrice EmptyString = Err (NumError EmptyString) /\
  parsePrice (String "." t) = Err (NumError EmptyString) /\
  (exists e, parsePrice (String.append w ".") = Err e) /\
  (exists e, parsePrice (String.append w (String "."
               (String.append t (String "." u)))) = Err e).
Proof.
  split; [reflexivity|]. split; [reflexivity|]. split.
  - apply parsePrice_bad_tail. now left.
  - apply parsePrice_bad_tail. right.
    rewrite all_chars_append. cbn [all_chars]. unfold not_dot at 2.
    rewrite Ascii.eqb_refl. cbn. apply andb_false_r.
Qed.

(** X2. [formatPrice] prints cents 1 to 9 as it prints ten times as many:
    two prices that differ have the same text. *)
Theorem formatPrice_collision (q c : Z) :
  0 <= q -> 1 <= c <= 9 ->
  formatPrice (100 * q + c) = formatPrice (100 * q + 10 * c) /\
  100 * q + c <> 100 * q + 10 * c.
Proof.
  intros Hq Hc. split; [|lia].
  rewrite !formatPrice_nonneg by lia.
  replace ((100 * q + c) mod 100) with c
    by (apply (Z.mod_unique_pos _ _ q); lia).
  replace ((100 * q + 10 * c) mod 100) with (10 * c)
    by (apply (Z.mod_unique_pos _ _ q); lia).
  replace ((100 * q + c) / 100) with q
    by (apply (Z.div_unique_pos _ _ q c); lia).
  replace ((100 * q + 10 * c) / 100) with q
    by (apply (Z.div_unique_pos _ _ q (10 * c)); lia).
  assert ((c =? 0) = false) as -> by lia.
  assert ((10 * c =? 0) = false) as -> by lia.
  rewrite (Z.mod_small c 10) by lia.
  assert ((c =? 0) = false) as -> by lia.
  replace ((10 * c) mod 10) with 0
    by (apply (Z.mod_unique_pos _ _ c); lia).
  cbn [Z.eqb].
  replace (10 * c / 10) with c
    by (apply (Z.div_unique_pos _ _ c 0); lia).
  reflexivity.
Qed.

Lemma formatPrice_collision_witness :
  formatPrice 21305 = formatPrice 21350.
Proof.
  apply (formatPrice_collision 213 5); lia.
Defined.

(** X3. A price that is not positive is printed as its whole units,
    rounded towards zero, the cents left out; every price above -100 and
    below 0 is printed "0". *)
Theorem formatPrice_nonpositive (price : Z) :
  price <= 0 ->
  formatPrice price = strconv.itoa (Z.quot price 100) /\
  (-100 < price -> formatPrice price = "0"%string).
Proof.
  intros Hp.
  assert (formatPrice price = strconv.itoa (Z.quot price 100)) as Heq.
  { unfold formatPrice.
    pose proof (Z.rem_nonpos price 100 ltac:(lia) Hp) as Hr.
    now assert ((0 <? Z.rem price 100) = false) as -> by lia. }
  split; [exact Heq|]. intros Hlow. rewrite Heq.
  replace (Z.quot price 100) with 0; [reflexivity|].
  symmetry. apply Z.quot_small_iff; lia.
Qed.

Lemma formatPrice_nonpositive_witness : formatPrice (-50) = "0"%string.
Proof.
  apply (formatPrice_nonpositive (-50)); lia.
Defined.

(** ** Numbers in both directions, over the whole of [int] *)

Lemma ParseInt_itoa_neg (n : Z) :
  0 < n <= 2 ^ 63 -> strconv.ParseInt (strconv.itoa (- n)) = Ok (- n).
Proof.
  intros Hn. unfold strconv.itoa.
  assert ((- n <? 0) = true) as -> by lia. rewrite Z.opp_involutive.
  destruct (utoa_spec n) as (Hne & Hdig & Hval); [lia|].
  unfold strconv.ParseInt. cbn [Ascii.eqb Bool.eqb orb negb andb].
  destruct (strconv.utoa n) as [|c u]; [congruence|].
  rewrite Hval. assert ((2 ^ 63 <? n) = false) as -> by lia. reflexivity.
Qed.

Lemma ParseInt_itoa_int (n : Z) :
  in_int n -> strconv.ParseInt (strconv.itoa n) = Ok n.
Proof.
  unfold in_int, minInt. intros Hn. destruct (Z_lt_le_dec n 0) as [Hneg|Hpos].
  - rewrite <- (Z.opp_involutive n). apply ParseInt_itoa_neg. lia.
  - apply ParseInt_itoa. lia.
Qed.

Lemma is_digit_num_char c : is_digit c = true -> is_num_char c = true.
Proof. unfold is_num_char. now intros ->. Qed.

Lemma is_num_char_not_comma c : is_num_char c = true -> not_comma c = true.
Proof.
  unfold not_comma. destruct (Ascii.eqb_spec c ","%char) as [->|]; [|reflexivity].
  vm_compute. discriminate.
Qed.

Lemma itoa_num_chars (z : Z) : all_chars is_num_char (strconv.itoa z) = true.
Proof.
  assert (forall n, 0 <= n -> all_chars is_num_char (strconv.utoa n) = true) as Hu.
  { intros n Hn. destruct (utoa_spec n Hn) as (_ & Hdig & _).
    revert Hdig. apply all_chars_impl, is_digit_num_char. }
  unfold strconv.itoa. destruct (z <? 0) eqn:Hz.
  - cbn [all_chars]. rewrite Hu by lia. reflexivity.
  - apply Hu. lia.
Qed.

Lemma formatPrice_num_chars (price : Z) :
  all_chars is_num_char (formatPrice price) = true.
Proof.
  unfold formatPrice. case_if; [|apply itoa_num_chars].
  rewrite all_chars_append. cbn [all_chars]. now rewrite !itoa_num_chars.
Qed.

Lemma itoa_no_dot (z : Z) : all_chars not_dot (strconv.itoa z) = true.
Proof.
  unfold strconv.itoa. destruct (z <? 0) eqn:Hz.
  - cbn [all_chars]. rewrite <- (itoa_nonneg (- z)) by lia.
    now rewrite itoa_not_dot by lia.
  - rewrite <- (itoa_nonneg z) by lia. apply itoa_not_dot. lia.
Qed.

(** X4. The sign of a price is the sign of its whole units only: the
    cents of a negative price are added, not subtracted. *)
Theorem parsePrice_negative_whole (a b : Z) :
  0 < a <= 92233720368547758 -> 10 <= b < 100 ->
  parsePrice (String.append (strconv.itoa (- a)) (String "." (strconv.itoa b))) =
    Ok (b - 100 * a) /\
  b - 100 * a <> - (100 * a + b).
Proof.
  intros Ha Hb. split; [|lia].
  rewrite parsePrice_frac by apply itoa_no_dot.
  rewrite ParseInt_itoa_neg by lia. cbn [bind].
  rewrite ParseInt_two_digits by lia. cbn [bind].
  rewrite int_wrap_small; [f_equal; lia|].
  unfold in_int, minInt, maxInt. lia.
Qed.

Lemma parsePrice_negative_whole_witness : parsePrice "-1.50" = Ok (-50).
Proof.
  apply (parsePrice_negative_whole 1 50); lia.
Defined.

(** ** The line parser *)

Lemma Split_no_comma (s : string) :
  all_chars not_comma s = true -> gostrings.Split s "," = [s].
Proof.
  induction s as [|c s IH]; cbn [gostrings.Split all_chars]; [reflexivity|].
  rewrite andb_true_iff. intros [Hc Hs]. unfold not_comma in Hc.
  destruct (Ascii.eqb c ","); [discriminate|]. now rewrite IH.
Qed.

Lemma Split_comma (a b : string) :
  all_chars not_comma a = true ->
  gostrings.Split (comma a b) "," = a :: gostrings.Split b ",".
Proof.
  unfold comma. induction a as [|c a IH]; simpl_append; [reflexivity|].
  rewrite andb_true_iff. intros [Hc Ha]. unfold not_comma in Hc.
  destruct (Ascii.eqb c ","); [discriminate|]. now rewrite IH.
Qed.

Lemma length_Split (s : string) :
  length (gostrings.Split s ",") = S (count_char "," s).
Proof.
  induction s as [|c s IH]; cbn [gostrings.Split count_char]; [reflexivity|].
  destruct (Ascii.eqb c ","); cbn [length]; [now rewrite IH|].
  destruct (gostrings.Split s ","); [discriminate | exact IH].
Qed.

Lemma ParseInt_error (s : string) (e : error) :
  strconv.ParseInt s = Err e -> e = NumError s.
Proof.
  unfold strconv.ParseInt. destruct s as [|c rest]; [now intros [= <-]|].
  destruct (if Ascii.eqb c "+" || Ascii.eqb c "-" then rest else String c rest);
    [now intros [= <-]|].
  destruct (strconv.digits_val _ 0); [|now intros [= <-]].
  repeat case_if; congruence.
Qed.

Lemma parsePrice_error (s : string) (e : error) :
  parsePrice s = Err e -> exists t, e = NumError t.
Proof.
  rewrite parsePrice_refines. unfold parsePrice_spec.
  destruct (gostrings.cut "." s) as [whole [frac|]];
    destruct (strconv.ParseInt whole) as [a|e1] eqn:E1; cbn [bind];
    try (intros [= <-]; apply ParseInt_error in E1; eauto); try discriminate.
  destruct (strconv.ParseInt (pad_cents frac)) as [b|e2] eqn:E2; cbn [bind];
    [discriminate|].
  intros [= <-]. apply ParseInt_error in E2. eauto.
Qed.

(** X5. [parse] answers [ErrInvalidLineFormat] for a line with fewer than
    three commas, and for no other line, as long as [time.Parse] does not
    answer with that error itself. *)
Theorem parse_invalid_format (timeParse : string -> result Z) (text : string) :
  ((count_char "," text < 3)%nat ->
   parse timeParse text = Err ErrInvalidLineFormat) /\
  ((forall s, timeParse s <> Err ErrInvalidLineFormat) ->
   parse timeParse text = Err ErrInvalidLineFormat ->
   (count_char "," text < 3)%nat).
Proof.
  unfold parse. rewrite length_Split.
  destruct (S (count_char "," text) <? 4)%nat eqn:Hlen.
  - apply Nat.ltb_lt in Hlen. split; [reflexivity | lia].
  - apply Nat.ltb_ge in Hlen. split; [lia|]. intros Htime.
    destruct (parsePrice _) as [price|e] eqn:Eprice; cbn [bind].
    { destruct (strconv.ParseInt _) as [i|e] eqn:Ecount; cbn [bind].
      - destruct (timeParse _) as [ts|e] eqn:Etime; cbn [bind]; [discriminate|].
        intros [= ->]. now apply Htime in Etime.
      - intros [= ->]. apply ParseInt_error in Ecount. discriminate. }
    intros [= ->]. apply parsePrice_error in Eprice as [t Ht]. discriminate.
Qed.

Lemma parse_invalid_format_witness :
  parse (fun s => Err (TimeParseError s)) "SBER,213.8,100" =
  Err ErrInvalidLineFormat.
Proof.
  apply (parse_invalid_format (fun s => Err (TimeParseError s)) "SBER,213.8,100").
  vm_compute. lia.
Defined.

Lemma parsePrice_formatPrice_exact (x : Z) :
  0 <= x <= maxInt -> x mod 100 = 0 \/ 10 <= x mod 100 ->
  parsePrice (formatPrice x) = Ok x.
Proof.
  intros Hx Hcents.
  pose proof (Z.div_mod x 100 ltac:(lia)) as Hdm.
  pose proof (Z.mod_pos_bound x 100 ltac:(lia)) as Hr.
  assert (0 <= x / 100 <= maxInt) as Hq.
  { unfold maxInt in *. split; [apply Z.div_pos; lia|].
    apply Z.lt_succ_r, Z.div_lt_upper_bound; lia. }
  assert (in_int x) as Hin by (unfold in_int, minInt, maxInt in *; lia).
  rewrite formatPrice_nonneg by lia. destruct Hcents as [H0 | H10].
  - assert ((x mod 100 =? 0) = true) as -> by lia.
    rewrite parsePrice_whole by (apply itoa_not_dot; lia).
    rewrite ParseInt_itoa by assumption. cbn [bind].
    replace (x / 100 * 100) with x by lia. now rewrite int_wrap_small.
  - assert ((x mod 100 =? 0) = false) as -> by lia.
    rewrite parsePrice_frac by (apply itoa_not_dot; lia).
    rewrite ParseInt_itoa by assumption. cbn [bind].
    pose proof (Z.div_mod (x mod 100) 10 ltac:(lia)) as Hdm'.
    pose proof (Z.mod_pos_bound (x mod 100) 10 ltac:(lia)) as Hr'.
    destruct ((x mod 100) mod 10 =? 0) eqn:Hten.
    + rewrite ParseInt_padded_digit
        by (split; [apply Z.div_pos; lia | apply Z.div_lt_upper_bound; lia]).
      cbn [bind].
      replace (x / 100 * 100 + x mod 100 / 10 * 10) with x by lia.
      now rewrite int_wrap_small.
    + rewrite ParseInt_two_digits by lia. cbn [bind].
      replace (x / 100 * 100 + x mod 100) with x by lia.
      now rewrite int_wrap_small.
Qed.

(** X6. A line written as ticker, price, count and timestamp with commas
    between them parses to these four values, whatever fields follow the
    timestamp: the ticker and the timestamp text have no comma, the
    price is printed by [formatPrice] and has cents 0 or at least 10, the
    count is any [int]. *)
Theorem parse_formatted_line (timeParse : string -> result Z)
    (ticker tstext : string) (more : list string) (x count ts : Z) :
  all_chars not_comma ticker = true ->
  all_chars not_comma tstext = true ->
  0 <= x <= maxInt -> x mod 100 = 0 \/ 10 <= x mod 100 ->
  in_int count ->
  timeParse tstext = Ok ts ->
  parse timeParse
    (join_fields (ticker :: formatPrice x :: strconv.itoa count :: tstext :: more)) =
  Ok {| Ticker := ticker; Timestamp := ts; Price := x; Count := count |}.
Proof.
  intros Hticker Htstext Hx Hcents Hcount Htime.
  assert (exists tail,
            gostrings.Split
              (join_fields
                 (ticker :: formatPrice x :: strconv.itoa count :: tstext :: more)) "," =
            ticker :: formatPrice x :: strconv.itoa count :: tstext :: tail)
    as [tail Hsplit].
  { cbn [join_fields]. rewrite Split_comma by assumption.
    rewrite Split_comma
      by (eapply all_chars_impl;
          [apply is_num_char_not_comma | apply formatPrice_num_chars]).
    rewrite Split_comma
      by (eapply all_chars_impl;
          [apply is_num_char_not_comma | apply itoa_num_chars]).
    destruct more as [|field more'].
    - rewrite Split_no_comma by assumption. eauto.
    - rewrite Split_comma by assumption. eauto. }
  unfold parse. rewrite Hsplit. cbn [length Nat.ltb Nat.leb nth].
  rewrite parsePrice_formatPrice_exact by assumption. cbn [bind].
  rewrite ParseInt_itoa_int by assumption. cbn [bind].
  now rewrite Htime.
Qed.

Lemma parse_formatted_line_witness :
  parse (fun _ => Ok 1548831585000249000)
    "SBER,213.8,100,2019-01-30 06:59:45.000249,extra" =
  Ok {| Ticker := "SBER"; Timestamp := 1548831585000249000;
        Price := 21380; Count := 100 |}.
Proof.
  apply (parse_formatted_line (fun _ => Ok 1548831585000249000)
           "SBER" "2019-01-30 06:59:45.000249" ["extra"%string] 21380 100).
  - reflexivity.
  - reflexivity.
  - unfold maxInt. lia.
  - right. vm_compute. discriminate.
  - unfold in_int, minInt, maxInt. lia.
  - reflexivity.
Defined.

(** ** The reader as a fan-out *)

Section ReaderTrace.

Variable timeParse : string -> result Z.

Lemma sent_to_broadcast (i : nat) (line : option Line) (n : nat) : forall a,
  sent_to i (map (fun out => ReadSend out line) (seq a n)) =
  if ((a <=? i) && (i <? a + n))%nat then [line] else [].
Proof.
  induction n as [|n IH]; intros a; cbn [seq map].
  - replace (i <? a + 0)%nat with (i <? a)%nat by (f_equal; lia).
    destruct (Nat.leb_spec a i), (Nat.ltb_spec i a); try reflexivity; lia.
  - unfold sent_to in *. cbn [flat_map]. rewrite IH.
    destruct (Nat.eqb_spec a i) as [->|Hne].
    + assert ((S i <=? i)%nat = false) as -> by (apply Nat.leb_gt; lia).
      assert ((i <=? i)%nat = true) as -> by (apply Nat.leb_le; lia).
      assert ((i <? i + S n)%nat = true) as -> by (apply Nat.ltb_lt; lia).
      reflexivity.
    + cbn [app].
      destruct (Nat.leb_spec (S a) i), (Nat.leb_spec a i),
        (Nat.ltb_spec i (S a + n)), (Nat.ltb_spec i (a + S n));
        try reflexivity; lia.
Qed.

Lemma sent_to_read_line (i nouts : nat) (text : string) :
  sent_to i (read_line timeParse nouts text) =
  if (i <? nouts)%nat then [parse_or_nil timeParse text] else [].
Proof.
  unfold read_line, parse_or_nil.
  destruct (parse timeParse text) as [line|e].
  - cbn [app]. now rewrite sent_to_broadcast.
  - unfold sent_to at 1. cbn [app flat_map].
    fold (sent_to i (map (fun out => ReadSend out None) (seq 0 nouts))).
    now rewrite sent_to_broadcast.
Qed.

Lemma sent_to_closes (i : nat) (l : list nat) :
  sent_to i (map ReadClose l) = [].
Proof. induction l as [|o l IH]; [reflexivity | exact IH]. Qed.

Lemma read_errors_broadcast (line : option Line) (l : list nat) :
  read_errors (map (fun out => ReadSend out line) l) = [].
Proof. induction l as [|o l IH]; [reflexivity | exact IH]. Qed.

Lemma read_errors_closes (l : list nat) : read_errors (map ReadClose l) = [].
Proof. induction l as [|o l IH]; [reflexivity | exact IH]. Qed.

Lemma closed_outputs_closes (l : list nat) :
  closed_outputs (map ReadClose l) = l.
Proof.
  induction l as [|o l IH]; [reflexivity|].
  unfold closed_outputs in *. cbn [map flat_map app]. now rewrite IH.
Qed.

Lemma closed_outputs_read_line (nouts : nat) (text : string) :
  closed_outputs (read_line timeParse nouts text) = [].
Proof.
  assert (forall line l,
            closed_outputs (map (fun out => ReadSend out line) l) = []) as Hb.
  { intros line l. induction l as [|o l IH]; [reflexivity | exact IH]. }
  unfold read_line. destruct (parse timeParse text); cbn [app]; [apply Hb|].
  unfold closed_outputs. cbn [flat_map app]. apply Hb.
Qed.

End ReaderTrace.

(** X7. Every output of [read] is sent one value for each line of the
    input, in the order of the input: the parsed line, or nil for a line
    that does not parse. All the outputs are sent the same sequence, and
    nothing is sent anywhere else. *)
Theorem read_fan_out (timeParse : string -> result Z) (texts : list string)
    (scanErr : option error) (nouts i : nat) :
  ((i < nouts)%nat ->
   sent_to i (read timeParse texts scanErr nouts) =
   map (parse_or_nil timeParse) texts) /\
  ((nouts <= i)%nat -> sent_to i (read timeParse texts scanErr nouts) = []).
Proof.
  assert (sent_to i (read timeParse texts scanErr nouts) =
          flat_map (fun text => if (i <? nouts)%nat
                                then [parse_or_nil timeParse text] else [])
            texts) as Heq.
  { unfold read. unfold sent_to at 1. rewrite !flat_map_app.
    fold (sent_to i (map ReadClose (seq 0 nouts))). rewrite sent_to_closes.
    assert (flat_map
              (fun ev => match ev with
                         | ReadSend o line => if (o =? i)%nat then [line] else []
                         | _ => []
                         end)
              match scanErr with Some e => [ReadErr e] | None => [] end = [])
      as -> by now destruct scanErr.
    rewrite !app_nil_r.
    induction texts as [|text texts IH]; [reflexivity|].
    cbn [flat_map]. rewrite flat_map_app, IH. f_equal.
    apply sent_to_read_line. }
  rewrite Heq. clear Heq. split; intros Hi.
  - apply Nat.ltb_lt in Hi. rewrite Hi.
    induction texts as [|text texts IH]; [reflexivity|].
    cbn [flat_map map app]. now rewrite IH.
  - apply Nat.ltb_ge in Hi. rewrite Hi.
    induction texts as [|text texts IH]; [reflexivity | exact IH].
Qed.

Lemma read_fan_out_witness :
  sent_to 1 (read (fun s => Err (TimeParseError s))
               ["garbage"; "SBER,x,100,t"]%string None 2) = [None; None].
Proof.
  apply (read_fan_out (fun s => Err (TimeParseError s))
           ["garbage"; "SBER,x,100,t"]%string None 2 1).
  lia.
Defined.

(** X8. The errors [read] reports are the errors of the lines that do
    not parse, in the order of the input, and then the error of the
    scanner if it has one; the outputs are closed once each, in their
    order, after everything else. *)
Theorem read_reports_and_closes (timeParse : string -> result Z)
    (texts : list string) (scanErr : option error) (nouts : nat) :
  read_errors (read timeParse texts scanErr nouts) =
    parse_failures timeParse texts
    ++ match scanErr with Some e => [e] | None => [] end /\
  closed_outputs (read timeParse texts scanErr nouts) = seq 0 nouts /\
  exists before,
    read timeParse texts scanErr nouts = before ++ map ReadClose (seq 0 nouts) /\
    closed_outputs before = [].
Proof.
  assert (closed_outputs
            (flat_map (read_line timeParse nouts) texts
             ++ match scanErr with Some e => [ReadErr e] | None => [] end) = [])
    as Hbefore.
  { unfold closed_outputs. rewrite flat_map_app.
    assert (flat_map (fun ev => match ev with ReadClose o => [o] | _ => [] end)
              match scanErr with Some e => [ReadErr e] | None => [] end = [])
      as -> by now destruct scanErr.
    rewrite app_nil_r.
    induction texts as [|text texts IH]; [reflexivity|].
    cbn [flat_map]. rewrite flat_map_app, IH, app_nil_r.
    apply closed_outputs_read_line. }
  split; [|split].
  - clear Hbefore. unfold read. unfold read_errors at 1. rewrite !flat_map_app.
    fold (read_errors (map ReadClose (seq 0 nouts))).
    rewrite read_errors_closes, app_nil_r. f_equal.
    + unfold parse_failures.
      induction texts as [|text texts IH]; [reflexivity|].
      cbn [flat_map]. rewrite flat_map_app, IH. f_equal.
      unfold read_line. destruct (parse timeParse text) as [line|e].
      * cbn [app]. apply read_errors_broadcast.
      * cbn [app flat_map]. f_equal. apply read_errors_broadcast.
    + now destruct scanErr.
  - unfold read. rewrite app_assoc. unfold closed_outputs at 1.
    rewrite flat_map_app.
    fold (closed_outputs (map ReadClose (seq 0 nouts))).
    unfold closed_outputs in Hbefore. rewrite Hbefore.
    apply closed_outputs_closes.
  - eexists. split; [|exact Hbefore]. unfold read. now rewrite app_assoc.
Qed.

(** ** The writer on a writer that does not fail *)

Section GoodWriter.

Context {W : Type}.
Variable Fappend : W -> string -> W.
Variable formatTime : Z -> string.

Lemma write_loop_good (cs : list Candle) : forall w : W,
  write_loop W (fun w text => (Fappend w text, None)) formatTime w cs =
  (fold_left Fappend (map (candle_record formatTime) cs) w,
   map WriteRecord (map (candle_record formatTime) cs)).
Proof.
  induction cs as [|candle cs IH]; intros w; cbn [write_loop]; [reflexivity|].
  rewrite IH. reflexivity.
Qed.

End GoodWriter.

(** X9. On a writer that does not fail, [write] leaves the writer as
    it is after the records of the candles, one after the other, does
    nothing but write them and signal completion, and reports no error;
    on a buffer the contents are the records in a row. *)
Theorem write_to_good_writer (W : Type) (Fappend : W -> string -> W)
    (formatTime : Z -> string) (w : W) (buffer : string) (cs : list Candle) :
  let records := map (candle_record formatTime) cs in
  write W (fun w text => (Fappend w text, None)) formatTime w cs =
    (fold_left Fappend records w, map WriteRecord records ++ [WriteDone]) /\
  (write string (fun b text => (String.append b text, None)) formatTime buffer cs).1 =
    String.append buffer (fold_right String.append EmptyString records).
Proof.
  intros records. unfold write. rewrite !write_loop_good. split; [reflexivity|].
  cbn [fst]. subst records. generalize (map (candle_record formatTime) cs).
  intros l. revert buffer.
  induction l as [|text l IH]; intros buffer; cbn [fold_left fold_right].
  - now rewrite append_nil_r.
  - now rewrite IH, append_assoc.
Qed.

(** X10. The record of a candle has six fields when it is split at its
    commas, as long as the ticker and the text of the time have none:
    the ticker, the time, the open, high, low and close prices, the last
    of them with the end of the line. *)
Theorem candle_record_fields (formatTime : Z -> string) (candle : Candle) :
  all_chars not_comma (CandleTicker candle) = true ->
  all_chars not_comma (formatTime (Start candle)) = true ->
  gostrings.Split (candle_record formatTime candle) "," =
  [CandleTicker candle; formatTime (Start candle);
   formatPrice (PriceStart candle); formatPrice (PriceMax candle);
   formatPrice (PriceMin candle);
   String.append (formatPrice (PriceEnd candle)) (String "010"%char EmptyString)].
Proof.
  intros Hticker Htime.
  assert (forall p, all_chars not_comma (formatPrice p) = true) as Hprice.
  { intros p. eapply all_chars_impl;
      [apply is_num_char_not_comma | apply formatPrice_num_chars]. }
  unfold candle_record.
  rewrite !Split_comma by auto.
  rewrite Split_no_comma; [reflexivity|].
  rewrite all_chars_append, Hprice. reflexivity.
Qed.

Lemma candle_record_fields_witness :
  gostrings.Split
    (candle_record (fun _ => "2019-01-30T07:00:00Z"%string)
       (newCandle (clock 17926 7 0 0 0) "AAPL" 16288)) "," =
  ["AAPL"; "2019-01-30T07:00:00Z"; "162.88"; "162.88"; "162.88";
   String.append "162.88" (String "010"%char EmptyString)]%string.
Proof.
  apply (candle_record_fields (fun _ => "2019-01-30T07:00:00Z"%string)
           (newCandle (clock 17926 7 0 0 0) "AAPL" 16288)); reflexivity.
Defined.

(** ** Invariants of the aggregator *)

Lemma process_line_cases (span : Z) (st st' : pstate) (line : Line) :
  process_line span st line = Some st' ->
  (Timestamp line < l st /\ st' = st) \/
  (l st <= Timestamp line < r st /\ st' = aggregate st line) \/
  (l st <= Timestamp line /\ r st <= Timestamp line /\
   exists fuel st2,
     adjust fuel span (Timestamp line) (flush st) = Some st2 /\
     st' = aggregate st2 line).
Proof.
  unfold process_line. destruct (Timestamp line <? l st) eqn:Hl.
  - intros [= <-]. left. split; [lia | reflexivity].
  - destruct ((r st <? Timestamp line) || (Timestamp line =? r st)) eqn:Hr.
    + destruct (adjust _ span _ (flush st)) as [st2|] eqn:E; [|discriminate].
      intros [= <-]. right. right. apply orb_true_iff in Hr.
      split; [lia|]. split; [lia|]. eauto.
    + intros [= <-]. right. left. apply orb_false_iff in Hr.
      split; [lia | reflexivity].
Qed.

Section Invariant.

Variable span : Z.

(** A property of the lines seen so far and of the state. *)
Variable I : list Line -> pstate -> Prop.

Hypothesis I_discard : forall seen st line, I seen st -> I (seen ++ [line]) st.
Hypothesis I_flush : forall seen st, I seen st -> I seen (flush st).
Hypothesis I_step : forall seen st,
  I seen st -> candles st = ∅ -> I seen (adjust_step span st).
Hypothesis I_aggregate : forall seen st line,
  I seen st -> I (seen ++ [line]) (aggregate st line).

Lemma adjust_invariant (ts : Z) (seen : list Line) (fuel : nat) : forall st st',
  I seen st -> candles st = ∅ ->
  adjust fuel span ts st = Some st' -> I seen st' /\ candles st' = ∅.
Proof.
  induction fuel as [|fuel IH]; intros st st' HI Hempty; cbn [adjust];
    destruct (r st <? ts); try discriminate; try (intros [= <-]; now auto).
  apply IH; [now apply I_step|].
  destruct (adjust_step_keeps span st) as [-> _]. assumption.
Qed.

Lemma process_line_invariant (seen : list Line) (st st' : pstate) (line : Line) :
  I seen st -> process_line span st line = Some st' -> I (seen ++ [line]) st'.
Proof.
  intros HI H. apply process_line_cases in H
    as [[_ ->] | [[_ ->] | (_ & _ & fuel & st2 & Hadj & ->)]]; auto.
  apply I_aggregate.
  now apply (adjust_invariant _ _ _ _ _ (I_flush _ _ HI) eq_refl Hadj).
Qed.

Lemma process_loop_invariant (lines : list Line) : forall seen st st',
  I seen st -> process_loop span st lines = Some st' -> I (seen ++ lines) st'.
Proof.
  induction lines as [|line lines IH]; intros seen st st' HI;
    cbn [process_loop].
  - intros [= <-]. now rewrite app_nil_r.
  - destruct (process_line span st line) as [st1|] eqn:E; [|discriminate].
    intros H. replace (seen ++ line :: lines) with ((seen ++ [line]) ++ lines)
      by now rewrite <- app_assoc.
    apply (IH _ st1); [|assumption].
    now apply (process_line_invariant _ st).
Qed.

Lemma process_state_invariant (lines : list Line) (st : pstate) :
  (forall first, I [first] (process_first span first)) ->
  process_state span lines = Some st -> I lines st.
Proof.
  intros Hfirst. destruct lines as [|first rest]; cbn [process_state];
    [discriminate|].
  intros H. change (first :: rest) with ([first] ++ rest).
  now apply (process_loop_invariant rest [first] (process_first span first)).
Qed.

End Invariant.

Lemma process_output (span : Z) (lines : list Line) (cs : list Candle) :
  lines <> [] -> process span lines = Some cs ->
  exists st, process_state span lines = Some st /\ cs = out (flush st).
Proof.
  destruct lines as [|first rest]; [congruence|]. intros _.
  cbn [process process_state].
  destruct (process_loop span (process_first span first) rest) as [st|];
    [|discriminate].
  intros [= <-]. eauto.
Qed.

(** *** Open candles and their keys *)

Lemma update_candle_fields (c : Candle) (price : Z) :
  CandleTicker (update_candle c price) = CandleTicker c /\
  Start (update_candle c price) = Start c /\
  PriceStart (update_candle c price) = PriceStart c /\
  PriceEnd (update_candle c price) = price /\
  PriceMin (update_candle c price) = Z.min (PriceMin c) price /\
  PriceMax (update_candle c price) = Z.max (PriceMax c) price.
Proof.
  unfold update_candle.
  destruct (price <? PriceMin c) eqn:E1; cbn [PriceMax PriceMin];
    case_if; cbn; repeat split; lia.
Qed.

Lemma open_ok_aggregate (st : pstate) (line : Line) :
  open_ok st -> open_ok (aggregate st line).
Proof.
  unfold open_ok, aggregate. cbn [candles l]. intros H.
  apply map_Forall_insert_2; [|assumption].
  destruct (candles st !! Ticker line) as [c|] eqn:E; [|now cbn].
  destruct (H _ _ E) as [Hk Hs].
  destruct (update_candle_fields c (Price line)) as (-> & -> & _). auto.
Qed.

Lemma open_ok_reached (span : Z) (lines : list Line) (st : pstate) :
  process_state span lines = Some st -> open_ok st.
Proof.
  apply (process_state_invariant span (fun _ st => open_ok st)); clear.
  - auto.
  - intros _ st _. unfold open_ok, flush. cbn [candles]. apply map_Forall_empty.
  - intros _ st _ Hempty. unfold open_ok.
    destruct (adjust_step_keeps span st) as [-> _]. rewrite Hempty.
    apply map_Forall_empty.
  - intros _ st line. apply open_ok_aggregate.
  - intros first. unfold open_ok, process_first. cbn [candles l].
    case_if; [apply map_Forall_empty|]. now apply map_Forall_singleton.
Qed.

Lemma tickers_of_map (m : gmap string Candle) :
  map_Forall (fun k c => CandleTicker c = k) m ->
  CandleTicker <$> (map_to_list m).*2 = (map_to_list m).*1.
Proof.
  intros H. apply map_Forall_to_list in H.
  induction H as [|[k c] kcs Hkc _ IH]; [reflexivity|].
  cbn in *. now rewrite Hkc, IH.
Qed.

(** X11. In every state [process] reaches, an open candle is filed under
    its own ticker and starts at the start of the current window; the
    candles of one flush are then candles of tickers that all differ. *)
Theorem open_candles_keyed (span : Z) (lines : list Line) (st : pstate) :
  process_state span lines = Some st ->
  (forall k c, candles st !! k = Some c -> CandleTicker c = k /\ Start c = l st) /\
  NoDup (CandleTicker <$> (map_to_list (candles st)).*2).
Proof.
  intros H. apply open_ok_reached in H. split; [exact H|].
  rewrite tickers_of_map; [apply NoDup_fst_map_to_list|].
  intros k c Hkc. now destruct (H k c Hkc).
Qed.

Lemma open_candles_keyed_witness :
  NoDup (CandleTicker <$>
           (map_to_list
              (candles
                 (aggregate
                    (process_first (5 * Minute)
                       (mkLine "SBER" (clock 17926 7 0 1 53224000) 21380 0))
                    (mkLine "AAPL" (clock 17926 7 0 9 838841000) 16288 0)))).*2).
Proof.
  apply (open_candles_keyed (5 * Minute)
           [mkLine "SBER" (clock 17926 7 0 1 53224000) 21380 0;
            mkLine "AAPL" (clock 17926 7 0 9 838841000) 16288 0]).
  reflexivity.
Defined.

(** *** No more candles than lines *)

Lemma count_reached (span : Z) (lines : list Line) (st : pstate) :
  process_state span lines = Some st ->
  (length (out st) + size (candles st) <= length lines)%nat.
Proof.
  apply (process_state_invariant span
           (fun seen st => (length (out st) + size (candles st) <= length seen)%nat));
    clear.
  - intros seen st line H. rewrite length_app. cbn. lia.
  - intros seen st H. unfold flush. cbn [out candles].
    rewrite length_app, length_fmap, length_map_to_list, map_size_empty. lia.
  - intros seen st H _. now destruct (adjust_step_keeps span st) as [-> ->].
  - intros seen st line H. unfold aggregate. cbn [out candles].
    rewrite length_app, map_size_insert. cbn [length].
    destruct (candles st !! Ticker line); cbn; lia.
  - intros first. unfold process_first. cbn [out candles length].
    case_if; [rewrite map_size_empty | rewrite map_size_singleton]; lia.
Qed.

(** X12. [process] sends at most as many candles as it receives lines. *)
Theorem process_output_length (span : Z) (lines : list Line) (cs : list Candle) :
  process span lines = Some cs -> (length cs <= length lines)%nat.
Proof.
  destruct lines as [|first rest].
  - intros [= <-]. cbn. lia.
  - intros H. apply process_output in H as (st & Hst & ->); [|discriminate].
    apply count_reached in Hst. unfold flush. cbn [out].
    rewrite length_app, length_fmap, length_map_to_list. lia.
Qed.

Lemma process_output_length_witness :
  (length [newCandle (clock 17926 7 0 0 0) "SBER" 21380] <= 2)%nat.
Proof.
  apply (process_output_length (5 * Minute)
           [mkLine "SBER" (clock 17926 6 59 45 249000) 21390 0;
            mkLine "SBER" (clock 17926 7 0 1 53224000) 21380 0]).
  vm_compute. reflexivity.
Defined.

(** *** Where the values of a candle come from *)

Lemma from_lines_more (seen : list Line) (line : Line) (c : Candle) :
  from_lines seen c -> from_lines (seen ++ [line]) c.
Proof.
  intros H p Hp. destruct (H p Hp) as (line' & Hin & Hrest).
  exists line'. split; [|assumption]. apply elem_of_app. now left.
Qed.

Lemma from_lines_new (seen : list Line) (line : Line) (start : Z) :
  from_lines (seen ++ [line]) (newCandle start (Ticker line) (Price line)).
Proof.
  intros p Hp. exists line. split; [apply elem_of_app; right; constructor|].
  split; [reflexivity|]. cbn in Hp. intuition congruence.
Qed.

Lemma from_lines_update (seen : list Line) (line : Line) (c : Candle) :
  CandleTicker c = Ticker line ->
  from_lines seen c ->
  from_lines (seen ++ [line]) (update_candle c (Price line)).
Proof.
  intros Hk H p Hp.
  destruct (update_candle_fields c (Price line))
    as (Ht & _ & Hs & He & Hmin & Hmax).
  rewrite Ht, Hs, He, Hmin, Hmax in *.
  assert (p = Price line \/
          (p = PriceStart c \/ p = PriceEnd c \/ p = PriceMin c \/ p = PriceMax c))
    as [-> | Hold] by lia.
  - exists line. split; [apply elem_of_app; right; constructor|]. auto.
  - destruct (H p Hold) as (line' & Hin & Hrest).
    exists line'. split; [apply elem_of_app; now left | assumption].
Qed.

Lemma from_lines_reached (span : Z) (lines : list Line) (st : pstate) :
  process_state span lines = Some st -> open_ok st /\ all_from_lines lines st.
Proof.
  apply (process_state_invariant span
           (fun seen st => open_ok st /\ all_from_lines seen st)); clear.
  - intros seen st line [Hopen [Hm Ho]]. split; [assumption|]. split.
    + intros k c Hkc. apply from_lines_more. exact (Hm k c Hkc).
    + eapply Forall_impl; [exact Ho|]. intros c. apply from_lines_more.
  - intros seen st [Hopen [Hm Ho]]. split; [|split].
    + unfold open_ok, flush. cbn [candles]. apply map_Forall_empty.
    + unfold flush. cbn [candles]. apply map_Forall_empty.
    + unfold flush. cbn [out]. apply Forall_app. split; [assumption|].
      apply Forall_fmap. apply map_Forall_to_list in Hm.
      eapply Forall_impl; [exact Hm|]. now intros [k c].
  - intros seen st [Hopen [Hm Ho]] Hempty.
    unfold open_ok, all_from_lines.
    destruct (adjust_step_keeps span st) as [-> ->]. rewrite Hempty.
    split; [apply map_Forall_empty|].
    split; [apply map_Forall_empty | assumption].
  - intros seen st line [Hopen [Hm Ho]].
    split; [now apply open_ok_aggregate|]. split.
    + unfold aggregate. cbn [candles]. apply map_Forall_insert_2.
      * destruct (candles st !! Ticker line) as [c|] eqn:E.
        -- apply from_lines_update; [apply (Hopen _ _ E) | exact (Hm _ _ E)].
        -- apply from_lines_new.
      * intros k c Hkc. apply from_lines_more. exact (Hm k c Hkc).
    + unfold aggregate. cbn [out].
      eapply Forall_impl; [exact Ho|]. intros c. apply from_lines_more.
  - intros first. unfold open_ok, all_from_lines, process_first.
    cbn [candles out l].
    case_if.
    + split; [apply map_Forall_empty|].
      split; [apply map_Forall_empty | apply Forall_nil_2].
    + split; [now apply map_Forall_singleton|].
      split; [|apply Forall_nil_2].
      apply map_Forall_singleton. apply (from_lines_new [] first).
Qed.

(** X13. A candle of the output has the ticker of a line of the input,
    and each of its four prices is the price of a line of the input with
    that ticker: [process] makes up no value. *)
Theorem process_output_from_lines (span : Z) (lines : list Line)
    (cs : list Candle) (c : Candle) :
  process span lines = Some cs -> c ∈ cs ->
  forall p,
    p = PriceStart c \/ p = PriceEnd c \/ p = PriceMin c \/ p = PriceMax c ->
    exists line, line ∈ lines /\ Ticker line = CandleTicker c /\ Price line = p.
Proof.
  destruct lines as [|first rest].
  - intros [= <-] Hc. now apply elem_of_nil in Hc.
  - intros H Hc. apply process_output in H as (st & Hst & ->); [|discriminate].
    apply from_lines_reached in Hst as [_ [Hm Ho]].
    unfold flush in Hc. cbn [out] in Hc. apply elem_of_app in Hc as [Hc | Hc].
    + rewrite Forall_forall in Ho. exact (Ho c Hc).
    + apply list_elem_of_fmap in Hc as ([k c'] & -> & Hc).
      apply elem_of_map_to_list in Hc. exact (Hm k c' Hc).
Qed.

Lemma process_output_from_lines_witness :
  exists line,
    line ∈ [mkLine "AAPL" (clock 17926 7 0 2 949487000) 16320 0;
            mkLine "AAPL" (clock 17926 7 0 9 838841000) 16288 0] /\
    Ticker line = "AAPL"%string /\ Price line = 16288.
Proof.
  apply (process_output_from_lines (5 * Minute)
           [mkLine "AAPL" (clock 17926 7 0 2 949487000) 16320 0;
            mkLine "AAPL" (clock 17926 7 0 9 838841000) 16288 0]
           [mkCandle "AAPL" (clock 17926 7 0 0 0) 16320 16288 16288 16320]
           (mkCandle "AAPL" (clock 17926 7 0 0 0) 16320 16288 16288 16320)).
  - vm_compute. reflexivity.
  - constructor.
  - right. left. reflexivity.
Defined.

(** *** The window and the starts of the candles *)

Section Windows.

Variable span : Z.
Hypothesis span_fits : 0 < span <= TradesDuration.

Lemma midnight_mod (ts : Z) : midnight ts mod (24 * Hour) = 0.
Proof.
  unfold midnight. destruct durations as (-> & _ & _).
  pose proof (Z.div_mod ts 86400000000000 ltac:(lia)) as Hdm.
  replace (ts - ts mod 86400000000000) with (ts / 86400000000000 * 86400000000000)
    by lia.
  apply Z.mod_mul. lia.
Qed.

Lemma process_first_window_ok (first : Line) :
  window_ok span (process_first span first).
Proof.
  unfold window_ok. split; [apply process_first_session|].
  unfold process_first. cbn [day l r max].
  split; [apply midnight_mod|].
  destruct durations as (HD & HS & HT).
  split; [lia|]. split; [lia|]. exists 0. lia.
Qed.

Lemma adjust_step_window_ok (st : pstate) :
  window_ok span st ->
  window_ok span (adjust_step span st) /\ l st <= l (adjust_step span st).
Proof.
  intros (Hsession & Hday & Hlmax & Hr & k & Hk & Hl).
  pose proof (adjust_step_session span st Hsession) as Hsession'.
  unfold session_ok in Hsession.
  destruct durations as (HD & HS & HT).
  unfold window_ok, adjust_step in *.
  destruct (r st =? max st) eqn:Ejump; cbn [day l r max] in *.
  - split; [|lia]. split; [assumption|].
    split.
    { rewrite HD in *. rewrite <- (Z.mul_1_l 86400000000000) at 1.
      rewrite Z.mod_add by lia. assumption. }
    split; [lia|]. split; [lia|]. exists 0. lia.
  - assert (r st = l st + span) as Hr' by lia.
    split; [|lia]. split; [assumption|]. split; [assumption|].
    split; [lia|]. split; [case_if; lia|]. exists (k + 1). lia.
Qed.

Lemma same_start_sorted (x : Z) (cs : list Candle) :
  Forall (fun c => Start c = x) cs ->
  Sorted.StronglySorted (fun a b => Start a <= Start b) cs.
Proof.
  induction 1 as [|c cs Hc Hcs IH]; constructor; [assumption|].
  eapply Forall_impl; [exact Hcs|]. intros c' Hc'. cbv beta in *. lia.
Qed.

Lemma window_start_aligned (st : pstate) :
  window_ok span st -> aligned span (l st).
Proof.
  intros (Hsession & Hday & Hlmax & _ & k & Hk & Hl).
  unfold session_ok in Hsession. exists (day st), k. repeat split; try assumption.
  lia.
Qed.

Lemma starts_ok_reached (lines : list Line) (st : pstate) :
  process_state span lines = Some st -> starts_ok span st.
Proof.
  apply (process_state_invariant span (fun _ st => starts_ok span st)).
  - auto.
  - intros _ s (Hw & Hm & Ho & Hsorted). unfold starts_ok, flush.
    cbn [candles out l]. split; [exact Hw|].
    split; [apply map_Forall_empty|].
    assert (Forall (fun c => Start c = l s) (map_to_list (candles s)).*2) as Hvals.
    { apply Forall_fmap. apply map_Forall_to_list in Hm.
      eapply Forall_impl; [exact Hm|]. now intros [k c]. }
    split.
    + apply Forall_app. split; [assumption|].
      eapply Forall_impl; [exact Hvals|]. intros c Hc. cbv beta. rewrite Hc.
      split; [now apply window_start_aligned | lia].
    + apply sorting.StronglySorted_app_2;
        [| assumption | now apply (same_start_sorted (l s))].
      intros a b Ha Hb. rewrite Forall_forall in Ho, Hvals.
      destruct (Ho a Ha) as [_ Hle]. rewrite (Hvals b Hb). exact Hle.
  - intros _ s (Hw & Hm & Ho & Hsorted) Hempty.
    destruct (adjust_step_window_ok s Hw) as [Hw' Hle].
    unfold starts_ok. destruct (adjust_step_keeps span s) as [-> ->].
    rewrite Hempty. split; [exact Hw'|]. split; [apply map_Forall_empty|].
    split; [|assumption].
    eapply Forall_impl; [exact Ho|]. intros c [Ha Hc]. split; [assumption | lia].
  - intros _ s line (Hw & Hm & Ho & Hsorted). unfold starts_ok, aggregate.
    cbn [candles out l]. split; [exact Hw|]. split; [|now split].
    apply map_Forall_insert_2; [|assumption].
    destruct (candles s !! Ticker line) as [c|] eqn:E; [|reflexivity].
    destruct (update_candle_fields c (Price line)) as (_ & -> & _).
    exact (Hm _ _ E).
  - intros first. unfold starts_ok.
    split; [apply process_first_window_ok|].
    unfold process_first. cbn [candles out l].
    split; [|split; [apply Forall_nil_2 | constructor]].
    case_if; [apply map_Forall_empty | now apply map_Forall_singleton].
Qed.

Lemma starts_ok_output (lines : list Line) (cs : list Candle) :
  process span lines = Some cs ->
  Forall (fun c => aligned span (Start c)) cs /\
  Sorted.StronglySorted (fun a b => Start a <= Start b) cs.
Proof.
  destruct lines as [|first rest].
  - intros [= <-]. split; constructor.
  - intros H. apply process_output in H as (st & Hst & ->); [|discriminate].
    apply starts_ok_reached in Hst.
    assert (starts_ok span (flush st)) as (_ & _ & Ho & Hsorted).
    { revert Hst. clear.
      intros (Hw & Hm & Ho & Hsorted). unfold starts_ok, flush.
      cbn [candles out l]. split; [exact Hw|].
      split; [apply map_Forall_empty|].
      assert (Forall (fun c => Start c = l st) (map_to_list (candles st)).*2)
        as Hvals.
      { apply Forall_fmap. apply map_Forall_to_list in Hm.
        eapply Forall_impl; [exact Hm|]. now intros [k c]. }
      split.
      + apply Forall_app. split; [assumption|].
        eapply Forall_impl; [exact Hvals|]. intros c Hc. cbv beta. rewrite Hc.
        split; [now apply window_start_aligned | lia].
      + apply sorting.StronglySorted_app_2;
          [| assumption | now apply (same_start_sorted (l st))].
        intros a b Ha Hb. rewrite Forall_forall in Ho, Hvals.
        destruct (Ho a Ha) as [_ Hle]. rewrite (Hvals b Hb). exact Hle. }
    split; [|assumption].
    eapply Forall_impl; [exact Ho|]. now intros c [Ha _].
Qed.

(** The loop "adjust interval" for a timestamp that is not after the
    session end: the day is kept, and the window it stops at has the
    timestamp after its start and not after its end. *)
Lemma adjust_within_session (ts : Z) (fuel : nat) : forall st st',
  window_ok span st -> ts <= max st -> l st < ts ->
  adjust fuel span ts st = Some st' ->
  window_ok span st' /\ day st' = day st /\ max st' = max st /\
  l st' < ts <= r st' /\ l st <= l st'.
Proof.
  induction fuel as [|fuel IH]; intros st st' Hw Hmax Hl; cbn [adjust];
    destruct (r st <? ts) eqn:Hr; try discriminate;
    try (intros [= <-]; split; [assumption | lia]).
  destruct (adjust_step_window_ok st Hw) as [Hw' Hle].
  destruct Hw as (_ & _ & _ & Hrmin & _).
  assert ((r st =? max st) = false) as Hjump by lia.
  assert (day (adjust_step span st) = day st /\
          max (adjust_step span st) = max st /\
          l (adjust_step span st) = r st) as (Hd1 & Hm1 & Hl1).
  { unfold adjust_step. rewrite Hjump. cbn [day max l]. repeat split. lia. }
  intros H. apply IH in H; [|assumption | lia | lia].
  destruct H as (Hw2 & Hd2 & Hm2 & Hin & Hle2).
  split; [assumption | lia].
Qed.

End Windows.

(** X14. With a span that is positive and no longer than a session, the
    window of every state [process] reaches lies in the session of its
    day, starts a whole number of spans after the session start and ends
    one span later or at the session end; every candle of the output
    starts at such a window start. *)
Theorem process_windows_on_grid (span : Z) (lines : list Line) :
  0 < span <= TradesDuration ->
  (forall st, process_state span lines = Some st ->
     day st mod (24 * Hour) = 0 /\ max st = day st + 24 * Hour /\
     l st < max st /\ r st = Z.min (l st + span) (max st) /\
     exists k, 0 <= k /\ l st = day st + TradesStart + k * span) /\
  (forall cs c, process span lines = Some cs -> c ∈ cs ->
     exists d k, d mod (24 * Hour) = 0 /\ 0 <= k /\
                 Start c = d + TradesStart + k * span /\
                 Start c < d + 24 * Hour).
Proof.
  intros Hspan. split.
  - intros st Hst. apply (starts_ok_reached span Hspan) in Hst
      as ((Hsession & Hday & Hlmax & Hr & Hgrid) & _).
    unfold session_ok in Hsession. auto.
  - intros cs c Hcs Hc. apply (starts_ok_output span Hspan) in Hcs as [Hal _].
    rewrite Forall_forall in Hal. exact (Hal c Hc).
Qed.

Lemma process_windows_on_grid_witness :
  exists d k, d mod (24 * Hour) = 0 /\ 0 <= k /\
    clock 17926 7 5 0 0 = d + TradesStart + k * (5 * Minute) /\
    clock 17926 7 5 0 0 < d + 24 * Hour.
Proof.
  assert (0 < 5 * Minute <= TradesDuration) as Hspan by (vm_compute; split; [reflexivity | discriminate]).
  destruct (process_windows_on_grid (5 * Minute)
              [mkLine "AAPL" (clock 17926 7 0 9 838841000) 16288 0;
               mkLine "AAPL" (clock 17926 7 7 33 21484000) 16148 0] Hspan)
    as [_ Hout].
  apply (Hout [newCandle (clock 17926 7 0 0 0) "AAPL" 16288;
               newCandle (clock 17926 7 5 0 0) "AAPL" 16148]
              (newCandle (clock 17926 7 5 0 0) "AAPL" 16148)).
  - vm_compute. reflexivity.
  - right. constructor.
Defined.

(** X15. With such a span, the candles of the output are in the order
    of their windows: no candle is sent before a candle of an earlier
    window. *)
Theorem process_output_in_window_order (span : Z) (lines : list Line)
    (cs : list Candle) :
  0 < span <= TradesDuration ->
  process span lines = Some cs ->
  Sorted.StronglySorted (fun a b => Start a <= Start b) cs.
Proof.
  intros Hspan Hcs. now apply (starts_ok_output span Hspan) in Hcs as [_ Hs].
Qed.

Lemma process_output_in_window_order_witness :
  Sorted.StronglySorted (fun a b => Start a <= Start b)
    [newCandle (clock 17926 7 0 0 0) "AAPL" 16288;
     newCandle (clock 17926 7 5 0 0) "AAPL" 16148].
Proof.
  apply (process_output_in_window_order (5 * Minute)
           [mkLine "AAPL" (clock 17926 7 0 9 838841000) 16288 0;
            mkLine "AAPL" (clock 17926 7 7 33 21484000) 16148 0]).
  - vm_compute. split; [reflexivity | discriminate].
  - vm_compute. reflexivity.
Defined.

Lemma window_ok_flush (span : Z) (st : pstate) :
  window_ok span st -> window_ok span (flush st).
Proof. now unfold window_ok, session_ok, flush. Qed.

(** X16. In a state whose window is on the grid, a line at or after the
    window end and not after the session end closes the window: the open
    candles are sent, the day is kept, the window moves by whole spans to
    the one that has the timestamp after its start and not after its end,
    and the line opens the only candle of that window. *)
Theorem advance_within_session (span : Z) (st : pstate) (line : Line) :
  0 < span <= TradesDuration ->
  window_ok span st ->
  r st <= Timestamp line <= max st ->
  exists st',
    process_line span st line = Some st' /\
    day st' = day st /\
    l st' < Timestamp line <= r st' /\
    (exists k, 0 <= k /\ l st' = l st + k * span) /\
    out st' = out st ++ (map_to_list (candles st)).*2 /\
    candles st' =
      {[ Ticker line := newCandle (l st') (Ticker line) (Price line) ]}.
Proof.
  intros Hspan Hw Hts.
  pose proof Hw as (Hsession & _ & Hlmax & Hr & k & Hk & Hl).
  assert (l st < r st) as Hlr by lia.
  unfold process_line.
  assert ((Timestamp line <? l st) = false) as -> by lia.
  assert ((r st <? Timestamp line) || (Timestamp line =? r st) = true) as ->
    by (apply orb_true_iff; lia).
  destruct (adjust_fuel_enough span (Timestamp line) ltac:(lia) (flush st) Hsession)
    as (st2 & Hadj & _ & _).
  rewrite Hadj. exists (aggregate st2 line). split; [reflexivity|].
  destruct (adjust_keeps _ _ _ _ _ Hadj) as [Hc Ho].
  apply (adjust_within_session span Hspan) in Hadj;
    [| now apply window_ok_flush | exact (proj2 Hts) | cbn [flush l]; lia].
  destruct Hadj as (Hw2 & Hd2 & Hm2 & Hin & Hle).
  cbn [flush day l max] in *. unfold aggregate. cbn [day l r out candles].
  split; [assumption|]. split; [assumption|]. split.
  { destruct Hw2 as (_ & _ & _ & _ & k2 & Hk2 & Hl2).
    exists (k2 - k). split; [nia | lia]. }
  split; [exact Ho|].
  rewrite Hc. cbn [flush candles]. rewrite lookup_empty. apply insert_empty.
Qed.

Lemma advance_within_session_witness :
  exists st',
    process_line (5 * Minute)
      (process_first (5 * Minute)
         (mkLine "AAPL" (clock 17926 7 0 9 838841000) 16288 0))
      (mkLine "AAPL" (clock 17926 7 7 33 21484000) 16148 0) = Some st' /\
    l st' = clock 17926 7 5 0 0 /\ r st' = clock 17926 7 10 0 0.
Proof.
  destruct (advance_within_session (5 * Minute)
              (process_first (5 * Minute)
                 (mkLine "AAPL" (clock 17926 7 0 9 838841000) 16288 0))
              (mkLine "AAPL" (clock 17926 7 7 33 21484000) 16148 0))
    as (st' & Hst' & _).
  - vm_compute. split; [reflexivity | discriminate].
  - unfold window_ok, session_ok. split; [reflexivity|].
    split; [reflexivity|]. split; [reflexivity|]. split; [reflexivity|].
    exists 0. split; [lia | reflexivity].
  - vm_compute. split; discriminate.
  - exists st'. split; [exact Hst'|].
    vm_compute in Hst'. injection Hst' as <-. split; reflexivity.
Defined.

(** ** Lines before the session *)

Lemma process_loop_before_start (span : Z) (pre rest : list Line) :
  forall st,
  Forall (fun line => Timestamp line < l st) pre ->
  process_loop span st (pre ++ rest) = process_loop span st rest.
Proof.
  induction pre as [|line pre IH]; intros st Hpre; [reflexivity|].
  apply Forall_cons in Hpre as [Hline Hpre].
  cbn [app process_loop]. unfold process_line.
  assert ((Timestamp line <? l st) = true) as -> by lia. now apply IH.
Qed.

(** X17. Lines before the start of the current window change nothing,
    wherever they come in the input; an input whose lines are all before
    the session start of the day of its first line gives no candle. *)
Theorem lines_before_start_dropped (span : Z) :
  (forall st pre rest,
     Forall (fun line => Timestamp line < l st) pre ->
     process_loop span st (pre ++ rest) = process_loop span st rest) /\
  (forall first rest,
     Forall (fun line =>
               Timestamp line < midnight (Timestamp first) + TradesStart)
       (first :: rest) ->
     process span (first :: rest) = Some []).
Proof.
  split; [intros st pre rest; apply process_loop_before_start|].
  intros first rest Hall. apply Forall_cons in Hall as [Hfirst Hrest].
  cbn [process].
  rewrite <- (app_nil_r rest), process_loop_before_start by exact Hrest.
  cbn [process_loop process_first out candles].
  assert ((Timestamp first <? midnight (Timestamp first) + TradesStart) = true)
    as -> by lia.
  now rewrite map_to_list_empty.
Qed.

Lemma lines_before_start_dropped_witness :
  process (5 * Minute)
    [mkLine "SBER" (clock 17926 6 59 45 249000) 21390 0;
     mkLine "AAPL" (clock 17926 3 0 0 0) 16288 0] = Some [].
Proof.
  apply (lines_before_start_dropped (5 * Minute)).
  repeat constructor; vm_compute; reflexivity.
Defined.

(** ** A span that is not positive *)

(** X18. With a span that is not positive, the first line after the
    first one that is not before the session start and is after the window
    end sends the loop "adjust interval" round for ever: no number of
    iterations ends it, and [process] never closes its output. *)
Theorem nonpositive_span_hangs (span : Z) (first second : Line)
    (rest : list Line) :
  span <= 0 ->
  midnight (Timestamp first) + TradesStart <= Timestamp second ->
  midnight (Timestamp first) + TradesStart + span < Timestamp second ->
  (forall fuel,
     adjust fuel span (Timestamp second) (flush (process_first span first)) =
     None) /\
  process span (first :: second :: rest) = None.
Proof.
  intros Hspan Hl Hr.
  assert (forall fuel,
            adjust fuel span (Timestamp second)
              (flush (process_first span first)) = None) as Hhang.
  { intros fuel. apply adjust_runs_on; [assumption | |];
      cbn [flush process_first r max]; [|lia].
    destruct durations as (_ & _ & HT). lia. }
  split; [exact Hhang|].
  cbn [process process_loop]. unfold process_line.
  cbn [process_first l r].
  assert ((Timestamp second <? midnight (Timestamp first) + TradesStart) = false)
    as -> by lia.
  assert ((midnight (Timestamp first) + TradesStart + span <? Timestamp second)
          || (Timestamp second =? midnight (Timestamp first) + TradesStart + span)
          = true) as -> by (apply orb_true_iff; lia).
  now rewrite Hhang.
Qed.

Lemma nonpositive_span_hangs_witness :
  process 0
    [mkLine "AAPL" (clock 17926 7 0 9 838841000) 16288 0;
     mkLine "AAPL" (clock 17926 7 7 33 21484000) 16148 0] = None.
Proof.
  apply (nonpositive_span_hangs 0
           (mkLine "AAPL" (clock 17926 7 0 9 838841000) 16288 0)
           (mkLine "AAPL" (clock 17926 7 7 33 21484000) 16148 0) []).
  - lia.
  - vm_compute. discriminate.
  - vm_compute. reflexivity.
Defined.

(** ** The wait at the end of [pipeline] *)

Lemma pipeline_wait_done (n : nat) (ctxErr : error) (rest : list wait_event) :
  pipeline_wait n ctxErr (repeat WaitDone n ++ rest) = Some None.
Proof. induction n as [|n IH]; [reflexivity | exact IH]. Qed.

(** X19. [pipeline] returns nil exactly when the first events its loop
    takes are one completion for each task; an error or the end of the
    context taken before that is what it returns, whatever comes after;
    and it takes no more events than there are tasks. *)
Theorem pipeline_wait_result (n : nat) (ctxErr : error)
    (events : list wait_event) :
  (pipeline_wait n ctxErr events = Some None <->
   exists rest, events = repeat WaitDone n ++ rest) /\
  (forall k e rest, (k < n)%nat ->
     pipeline_wait n ctxErr (repeat WaitDone k ++ WaitErr e :: rest) =
     Some (Some e)) /\
  (forall k rest, (k < n)%nat ->
     pipeline_wait n ctxErr (repeat WaitDone k ++ WaitDeadline :: rest) =
     Some (Some ctxErr)) /\
  (forall more,
     pipeline_wait n ctxErr (firstn n events ++ more) =
     pipeline_wait n ctxErr events \/
     pipeline_wait n ctxErr events = None).
Proof.
  split; [|split; [|split]].
  - split.
    + revert events. induction n as [|n IH]; intros events; cbn [pipeline_wait].
      * intros _. now exists events.
      * destruct events as [|[e| |] events]; try discriminate.
        intros H. destruct (IH _ H) as [rest ->]. now exists rest.
    + intros [rest ->]. apply pipeline_wait_done.
  - intros k. revert n. induction k as [|k IH]; intros n e rest Hk;
      (destruct n as [|n]; [lia|]); cbn; [reflexivity|].
    apply IH. lia.
  - intros k. revert n. induction k as [|k IH]; intros n rest Hk;
      (destruct n as [|n]; [lia|]); cbn; [reflexivity|].
    apply IH. lia.
  - intros more. revert events.
    induction n as [|n IH]; intros events; [now left|].
    destruct events as [|[e| |] events]; cbn [pipeline_wait firstn app]; auto.
Qed.

Lemma pipeline_wait_result_witness :
  pipeline_wait 3 (IOError "context deadline exceeded")
    [WaitDone; WaitErr ErrInvalidLineFormat; WaitDone; WaitDone] =
  Some (Some ErrInvalidLineFormat).
Proof.
  apply (pipeline_wait_result 3 (IOError "context deadline exceeded") []
           ) with (k := 1%nat) (rest := [WaitDone; WaitDone]).
  lia.
Defined.

(** ** The window advance over the end of a session *)

Section Rollover.

Variable span : Z.
Hypothesis span_fits : 0 < span <= TradesDuration.

Lemma midnight_greatest (d ts : Z) :
  d mod (24 * Hour) = 0 -> d <= ts -> d <= midnight ts.
Proof.
  unfold midnight. destruct durations as (-> & _ & _). intros Hd Hle.
  Z.div_mod_to_equations. lia.
Qed.

Lemma adjust_lands (ts : Z) (fuel : nat) : forall st st',
  window_ok span st -> day st <= midnight ts ->
  l st < ts \/ l st = day st + TradesStart ->
  adjust fuel span ts st = Some st' ->
  window_ok span st' /\ day st' <= midnight ts /\ ts <= r st' /\
  (l st' < ts \/ l st' = day st' + TradesStart).
Proof.
  induction fuel as [|fuel IH]; intros st st' Hw Hday Hl; cbn [adjust];
    destruct (r st <? ts) eqn:Hr; try discriminate;
    try (intros [= <-]; split; [assumption|]; split; [assumption|];
         split; [lia | assumption]).
  destruct (adjust_step_window_ok span span_fits st Hw) as [Hw' _].
  apply IH; [assumption | |].
  - destruct Hw as (Hsession & Hmod & _).
    unfold session_ok in Hsession. unfold adjust_step.
    destruct (r st =? max st) eqn:Ejump; cbn [day]; [|assumption].
    apply midnight_greatest; [|lia].
    destruct durations as (HD & _ & _). rewrite HD in *.
    rewrite <- (Z.mul_1_l 86400000000000) at 1.
    now rewrite Z.mod_add by lia.
  - destruct Hw as (_ & _ & _ & Hrmin & _). unfold adjust_step.
    destruct (r st =? max st) eqn:Ejump; cbn [day l]; [now right|].
    left. lia.
Qed.

End Rollover.

(** X20. For a span that is positive and no longer than a session, a
    line at or after the window end always ends the window advance, in a
    window on the grid whose end is not before the timestamp and whose day
    is the day of the timestamp (or the timestamp is the midnight that
    ends that day); the timestamp is after the start of that window unless
    the window is the first one of its day. *)
Theorem advance_lands_on_day (span : Z) (st : pstate) (line : Line) :
  0 < span <= TradesDuration ->
  window_ok span st ->
  r st <= Timestamp line ->
  exists st',
    process_line span st line = Some st' /\
    window_ok span st' /\
    Timestamp line <= r st' /\
    (day st' = midnight (Timestamp line) \/
     Timestamp line = day st' + 24 * Hour) /\
    (l st' < Timestamp line \/ l st' = day st' + TradesStart).
Proof.
  intros Hspan Hw Hts.
  pose proof Hw as (Hsession & Hmod & Hlmax & Hr & k & Hk & Hl).
  destruct durations as (HD & HS & HT).
  assert (l st < r st) as Hlr by lia.
  unfold process_line.
  assert ((Timestamp line <? l st) = false) as -> by lia.
  assert ((r st <? Timestamp line) || (Timestamp line =? r st) = true) as ->
    by (apply orb_true_iff; lia).
  destruct (adjust_fuel_enough span (Timestamp line) ltac:(lia) (flush st) Hsession)
    as (st2 & Hadj & _ & _).
  rewrite Hadj. exists (aggregate st2 line). split; [reflexivity|].
  apply (adjust_lands span Hspan) in Hadj;
    [| now apply window_ok_flush
     | cbn [flush day]; apply midnight_greatest; [assumption | nia]
     | cbn [flush l]; left; lia].
  destruct Hadj as (Hw2 & Hday2 & Hr2 & Hl2).
  unfold aggregate. cbn [day l r max].
  split; [exact Hw2|]. split; [exact Hr2|]. split; [|exact Hl2].
  destruct Hw2 as (Hsession2 & Hmod2 & Hlmax2 & Hrmin2 & _).
  unfold session_ok in Hsession2.
  pose proof (midnight_mod (Timestamp line)) as Hmid.
  assert (midnight (Timestamp line) <= Timestamp line) as Hle.
  { unfold midnight. rewrite HD. Z.div_mod_to_equations. lia. }
  rewrite HD in *. revert Hmod2 Hmid Hday2 Hle.
  generalize (midnight (Timestamp line)). intros m Hmod2 Hmid Hday2 Hle.
  Z.div_mod_to_equations. lia.
Qed.

Lemma advance_lands_on_day_witness :
  exists st',
    process_line (5 * Minute)
      (process_first (5 * Minute)
         (mkLine "AAPL" (clock 17926 7 0 1 0) 16288 0))
      (mkLine "AAPL" (clock 17927 3 0 0 0) 16148 0) = Some st' /\
    day st' = clock 17927 0 0 0 0 /\ l st' = clock 17927 7 0 0 0.
Proof.
  destruct (advance_lands_on_day (5 * Minute)
              (process_first (5 * Minute)
                 (mkLine "AAPL" (clock 17926 7 0 1 0) 16288 0))
              (mkLine "AAPL" (clock 17927 3 0 0 0) 16148 0))
    as (st' & Hst' & _).
  - vm_compute. split; [reflexivity | discriminate].
  - unfold window_ok, session_ok. split; [reflexivity|].
    split; [reflexivity|]. split; [reflexivity|]. split; [reflexivity|].
    exists 0. split; [lia | reflexivity].
  - vm_compute. discriminate.
  - exists st'. split; [exact Hst'|].
    vm_compute in Hst'. injection Hst' as <-. split; reflexivity.
Defined.

(** ** [ParseInt] and decimal notation *)

Lemma is_digit_of (c : ascii) :
  is_digit c = true ->
  strconv.digit_val c = Some (digit_of c) /\ 0 <= digit_of c <= 9.
Proof.
  unfold is_digit, strconv.digit_val, digit_of.
  destruct ((48 <=? Z.of_N (N_of_ascii c)) && (Z.of_N (N_of_ascii c) <=? 57))
    eqn:E; [|discriminate].
  intros _. apply andb_true_iff in E. split; [reflexivity | lia].
Qed.

Lemma dec_value_nonneg (s : string) :
  all_chars is_digit s = true -> 0 <= dec_value s.
Proof.
  induction s as [|c s IH]; cbn [all_chars dec_value]; [lia|].
  rewrite andb_true_iff. intros [Hc Hs].
  destruct (is_digit_of c Hc) as [_ Hd]. specialize (IH Hs).
  assert (0 <= 10 ^ Z.of_nat (String.length s)) by (apply Z.pow_nonneg; lia).
  nia.
Qed.

(** The loop of [ParseUint] computes positional notation. *)
Lemma digits_val_dec_value (s : string) : forall n,
  all_chars is_digit s = true ->
  strconv.digits_val s n =
  Some (n * 10 ^ Z.of_nat (String.length s) + dec_value s).
Proof.
  induction s as [|c s IH]; intros n;
    cbn [all_chars dec_value strconv.digits_val String.length].
  - intros _. f_equal. change (10 ^ Z.of_nat 0) with 1. lia.
  - rewrite andb_true_iff. intros [Hc Hs].
    destruct (is_digit_of c Hc) as [-> _]. rewrite IH by assumption.
    f_equal. rewrite Nat2Z.inj_succ, Z.pow_succ_r by lia. ring.
Qed.

Lemma digits_val_not_digits (s : string) : forall n,
  all_chars is_digit s = false -> strconv.digits_val s n = None.
Proof.
  induction s as [|c s IH]; intros n; cbn [all_chars strconv.digits_val];
    [discriminate|].
  unfold is_digit at 1. destruct (strconv.digit_val c); [|reflexivity].
  cbn [andb]. apply IH.
Qed.

Lemma digits_val_unsigned (s : string) :
  s <> EmptyString ->
  strconv.digits_val s 0 = unsigned_decimal s.
Proof.
  intros Hne. unfold unsigned_decimal. destruct s as [|c s']; [congruence|].
  destruct (all_chars is_digit (String c s')) eqn:E.
  - rewrite digits_val_dec_value by assumption. f_equal; lia.
  - now apply digits_val_not_digits.
Qed.

Lemma unsigned_decimal_nonneg (s : string) (n : Z) :
  unsigned_decimal s = Some n -> 0 <= n.
Proof.
  unfold unsigned_decimal. destruct s as [|c s']; [discriminate|].
  destruct (all_chars is_digit (String c s')) eqn:E; [|discriminate].
  intros [= <-]. exact (dec_value_nonneg (String c s') E).
Qed.

(** [ParseInt] accepts the base-10 integers that fit an [int], and gives
    their value. *)
Lemma ParseInt_decimal_int (s : string) :
  strconv.ParseInt s =
  match decimal_int s with
  | Some a =>
      if (minInt <=? a) && (a <=? maxInt) then Ok a else Err (NumError s)
  | None => Err (NumError s)
  end.
Proof.
  destruct s as [|c rest]; [reflexivity|].
  unfold strconv.ParseInt, decimal_int, minInt, maxInt.
  destruct (Ascii.eqb c "+") eqn:Eplus.
  - apply Ascii.eqb_eq in Eplus. subst c. cbn [Ascii.eqb Bool.eqb orb negb andb].
    destruct rest as [|c' rest']; [reflexivity|].
    rewrite digits_val_unsigned by discriminate.
    destruct (unsigned_decimal (String c' rest')) as [n|] eqn:E; [|reflexivity].
    apply unsigned_decimal_nonneg in E.
    destruct (2 ^ 63 <=? n) eqn:Hn.
    + assert ((- 2 ^ 63 <=? n) && (n <=? 2 ^ 63 - 1) = false) as ->
        by (apply andb_false_iff; right; lia).
      reflexivity.
    + assert ((- 2 ^ 63 <=? n) && (n <=? 2 ^ 63 - 1) = true) as ->
        by (apply andb_true_iff; lia).
      reflexivity.
  - destruct (Ascii.eqb c "-") eqn:Eminus.
    + cbn [orb negb andb].
      destruct rest as [|c' rest']; [reflexivity|].
      rewrite digits_val_unsigned by discriminate.
      destruct (unsigned_decimal (String c' rest')) as [n|] eqn:E; [|reflexivity].
      apply unsigned_decimal_nonneg in E.
      destruct (2 ^ 63 <? n) eqn:Hn.
      * assert ((- 2 ^ 63 <=? - n) && (- n <=? 2 ^ 63 - 1) = false) as ->
          by (apply andb_false_iff; left; lia).
        reflexivity.
      * assert ((- 2 ^ 63 <=? - n) && (- n <=? 2 ^ 63 - 1) = true) as ->
          by (apply andb_true_iff; lia).
        reflexivity.
    + cbn [orb negb andb].
      rewrite digits_val_unsigned by discriminate.
      destruct (unsigned_decimal (String c rest)) as [n|] eqn:E; [|reflexivity].
      apply unsigned_decimal_nonneg in E.
      destruct (2 ^ 63 <=? n) eqn:Hn.
      * assert ((- 2 ^ 63 <=? n) && (n <=? 2 ^ 63 - 1) = false) as ->
          by (apply andb_false_iff; right; lia).
        reflexivity.
      * assert ((- 2 ^ 63 <=? n) && (n <=? 2 ^ 63 - 1) = true) as ->
          by (apply andb_true_iff; lia).
        reflexivity.
Qed.

Lemma ParseInt_is_decimal (s : string) (a : Z) :
  decimal_int s = Some a -> in_int a -> strconv.ParseInt s = Ok a.
Proof.
  intros Hs Ha. rewrite ParseInt_decimal_int, Hs. unfold in_int in Ha.
  now assert ((minInt <=? a) && (a <=? maxInt) = true) as ->
    by (apply andb_true_iff; lia).
Qed.

Lemma ParseInt_not_decimal (s : string) :
  decimal_int s = None -> strconv.ParseInt s = Err (NumError s).
Proof. intros Hs. now rewrite ParseInt_decimal_int, Hs. Qed.

(** A fraction that is no base-10 integer is none after the padding
    either, unless it is a lone sign. *)
Lemma pad_cents_not_decimal (f : string) :
  decimal_int f = None -> f <> "+"%string -> f <> "-"%string ->
  decimal_int (pad_cents f) = None.
Proof.
  intros Hf Hplus Hminus. unfold pad_cents.
  destruct f as [|c [|c' f']]; cbn [String.length Nat.eqb]; try assumption.
  simpl_append. unfold decimal_int in *.
  destruct (Ascii.eqb c "+") eqn:Eplus.
  { apply Ascii.eqb_eq in Eplus. congruence. }
  destruct (Ascii.eqb c "-") eqn:Eminus.
  { apply Ascii.eqb_eq in Eminus. congruence. }
  unfold unsigned_decimal in *. cbn [all_chars] in *.
  destruct (is_digit c); [discriminate | reflexivity].
Qed.

Lemma text_shape (text : string) :
  all_chars not_dot text = true \/
  exists w f, text = String.append w (String "." f) /\
              all_chars not_dot w = true.
Proof.
  induction text as [|c text IH]; [now left|].
  cbn [all_chars]. unfold not_dot at 1.
  destruct (Ascii.eqb_spec c "."%char) as [->|Hc].
  - right. exists EmptyString, text. split; reflexivity.
  - destruct IH as [-> | (w & f & -> & Hw)]; [now left|].
    right. exists (String c w), f. split; [reflexivity|].
    cbn [all_chars]. unfold not_dot at 1.
    destruct (Ascii.eqb_spec c "."%char); [congruence | assumption].
Qed.

Lemma formatPrice_parts (q c : Z) :
  0 <= q -> 0 <= c < 100 ->
  (100 * q + c) mod 100 = c /\ (100 * q + c) / 100 = q.
Proof.
  intros Hq Hc. split; symmetry.
  - apply (Z.mod_unique_pos _ _ q); lia.
  - apply (Z.div_unique_pos _ _ q c); lia.
Qed.

Lemma decimal_int_itoa (q : Z) :
  0 <= q -> decimal_int (strconv.itoa q) = Some q.
Proof.
  intros Hq. rewrite itoa_nonneg by assumption.
  destruct (utoa_spec q Hq) as (Hne & Hdig & Hval).
  rewrite digits_val_unsigned in Hval by assumption.
  destruct (strconv.utoa q) as [|c u]; [congruence|].
  unfold decimal_int. cbn [all_chars] in Hdig.
  apply andb_true_iff in Hdig as [Hc _].
  destruct (is_digit_not_sign c Hc) as [-> ->]. exact Hval.
Qed.

(** C8, amended. [parsePrice] splits its input on the first ".", reads
    the text before it as whole units and the text after it as cents, a
    fraction of one digit counting ten times the digit, and returns
    [wholePart * 100 + centsPart] whenever that number fits an [int]; it
    fails when the whole part is not a base-10 integer, and when the
    fraction is not one, a fraction that is a lone sign apart. For a price
    [100 * q + c] that is not negative, [formatPrice] prints [q] in base 10,
    alone when the cents [c] are 0, followed by "." and the one digit
    [c / 10] when they are a multiple of 10, and followed by "." and the
    cents without a leading zero otherwise. The examples of the tests
    hold. *)
Theorem price_codec_decimal (w f : string) (a b d q c : Z) :
  all_chars not_dot w = true ->
  0 <= d <= 9 ->
  0 <= q -> 0 <= c < 100 ->
  (forall text,
     all_chars not_dot text = true \/
     exists w' f', text = String.append w' (String "." f') /\
                   all_chars not_dot w' = true) /\
  (decimal_int w = Some a -> in_int (a * 100) -> parsePrice w = Ok (a * 100)) /\
  (decimal_int w = Some a -> decimal_int f = Some b ->
   String.length f <> 1%nat ->
   in_int a -> in_int b -> in_int (a * 100 + b) ->
   parsePrice (String.append w (String "." f)) = Ok (a * 100 + b)) /\
  (decimal_int w = Some a -> in_int (a * 100 + 10 * d) ->
   parsePrice
     (String.append w (String "." (String (strconv.digit_char d) EmptyString))) =
   Ok (a * 100 + 10 * d)) /\
  (decimal_int w = None ->
   parsePrice w = Err (NumError w) /\
   parsePrice (String.append w (String "." f)) = Err (NumError w)) /\
  (decimal_int f = None -> f <> "+"%string -> f <> "-"%string ->
   exists e, parsePrice (String.append w (String "." f)) = Err e) /\
  (parsePrice "213.82" = Ok 21382 /\ parsePrice "213.8" = Ok 21380 /\
   parsePrice "213" = Ok 21300) /\
  decimal_int (strconv.itoa q) = Some q /\
  (c = 0 -> formatPrice (100 * q + c) = strconv.itoa q) /\
  (c <> 0 -> c mod 10 = 0 ->
   formatPrice (100 * q + c) =
   String.append (strconv.itoa q)
     (String "." (String (strconv.digit_char (c / 10)) EmptyString))) /\
  (c mod 10 <> 0 ->
   formatPrice (100 * q + c) =
   String.append (strconv.itoa q)
     (String "."
        (if c <? 10 then String (strconv.digit_char c) EmptyString
         else String (strconv.digit_char (c / 10))
                (String (strconv.digit_char (c mod 10)) EmptyString)))) /\
  (formatPrice 21382 = "213.82"%string /\ formatPrice 21380 = "213.8"%string /\
   formatPrice 21300 = "213"%string).
Proof.
  intros Hw Hd Hq Hc.
  split; [apply text_shape|].
  split.
  { intros Ha Hin. rewrite parsePrice_whole by assumption.
    rewrite (ParseInt_is_decimal w a Ha)
      by (unfold in_int, minInt, maxInt in *; lia).
    cbn [bind]. now rewrite int_wrap_small. }
  split.
  { intros Ha Hb Hlen Hina Hinb Hin. rewrite parsePrice_frac by assumption.
    rewrite (ParseInt_is_decimal w a Ha Hina). cbn [bind].
    assert (pad_cents f = f) as ->.
    { unfold pad_cents. now destruct (Nat.eqb_spec (String.length f) 1). }
    rewrite (ParseInt_is_decimal f b Hb Hinb). cbn [bind].
    now rewrite int_wrap_small. }
  split.
  { intros Ha Hin. rewrite parsePrice_frac by assumption.
    rewrite (ParseInt_is_decimal w a Ha)
      by (unfold in_int, minInt, maxInt in *; lia).
    cbn [bind]. rewrite <- (utoa_small d), <- itoa_nonneg by lia.
    rewrite ParseInt_padded_digit by lia. cbn [bind].
    replace (a * 100 + d * 10) with (a * 100 + 10 * d) by lia.
    now rewrite int_wrap_small. }
  split.
  { intros Ha. rewrite parsePrice_whole, parsePrice_frac by assumption.
    rewrite (ParseInt_not_decimal w Ha). split; reflexivity. }
  split.
  { intros Hf Hplus Hminus. rewrite parsePrice_frac by assumption.
    destruct (strconv.ParseInt w) as [i|e]; [|cbn [bind]; eauto].
    cbn [bind].
    rewrite (ParseInt_not_decimal _ (pad_cents_not_decimal f Hf Hplus Hminus)).
    cbn [bind]. eauto. }
  split; [repeat split; vm_compute; reflexivity|].
  split; [now apply decimal_int_itoa|].
  destruct (formatPrice_parts q c Hq Hc) as [Hmod Hdiv].
  assert (0 <= c / 10 < 10) as Htens.
  { split; [apply Z.div_pos; lia | apply Z.div_lt_upper_bound; lia]. }
  split; [|split; [|split; [|repeat split; vm_compute; reflexivity]]].
  - intros H0. rewrite formatPrice_nonneg, Hmod, Hdiv by lia.
    now assert ((c =? 0) = true) as -> by lia.
  - intros Hne Hten. rewrite formatPrice_nonneg, Hmod, Hdiv by lia.
    assert ((c =? 0) = false) as -> by lia.
    assert ((c mod 10 =? 0) = true) as -> by lia.
    now rewrite (itoa_nonneg (c / 10)), utoa_small by lia.
  - intros Hten. rewrite formatPrice_nonneg, Hmod, Hdiv by lia.
    assert (c <> 0) as Hne by (intros ->; now apply Hten).
    assert ((c =? 0) = false) as -> by lia.
    assert ((c mod 10 =? 0) = false) as -> by lia.
    rewrite (itoa_nonneg c) by lia. destruct (c <? 10) eqn:Hlt.
    + now rewrite utoa_small by lia.
    + now rewrite utoa_two_digits by lia.
Qed.

Lemma price_codec_decimal_witness :
  parsePrice "213.82" = Ok 21382 /\
  parsePrice "213.8" = Ok 21380 /\
  (exists e, parsePrice "213.x" = Err e) /\
  formatPrice 21382 = "213.82"%string.
Proof.
  assert (all_chars not_dot "213" = true) as Hw by reflexivity.
  assert (0 <= 8 <= 9) as Hd by lia.
  assert (0 <= 213) as Hq by lia.
  assert (0 <= 82 < 100) as Hc by lia.
  destruct (price_codec_decimal "213" "82" 213 82 8 213 82 Hw Hd Hq Hc)
    as (_ & _ & Htwo & Hone & _ & _ & _ & _ & _ & _ & Hplain & _).
  destruct (price_codec_decimal "213" "x" 213 82 8 213 82 Hw Hd Hq Hc)
    as (_ & _ & _ & _ & _ & Hbad & _).
  split; [|split; [|split]].
  - apply Htwo; try reflexivity; try discriminate;
      unfold in_int, minInt, maxInt; lia.
  - apply Hone; [reflexivity | unfold in_int, minInt, maxInt; lia].
  - apply Hbad; [reflexivity | discriminate | discriminate].
  - apply Hplain. vm_compute. discriminate.
Defined.

(** ** What has been sent stays sent *)

Lemma process_line_out (span : Z) (st st' : pstate) (line : Line) :
  process_line span st line = Some st' ->
  exists more, out st' = out st ++ more.
Proof.
  intros H. apply process_line_cases in H
    as [[_ ->] | [[_ ->] | (_ & _ & fuel & st2 & Hadj & ->)]].
  - exists []. now rewrite app_nil_r.
  - exists []. cbn [aggregate out]. now rewrite app_nil_r.
  - apply adjust_keeps in Hadj as [_ Ho]. cbn [aggregate out]. rewrite Ho.
    cbn [flush out]. eauto.
Qed.

Lemma process_loop_out (span : Z) (lines : list Line) : forall st st',
  process_loop span st lines = Some st' ->
  exists more, out st' = out st ++ more.
Proof.
  induction lines as [|line lines IH]; intros st st'; cbn [process_loop].
  - intros [= <-]. exists []. now rewrite app_nil_r.
  - destruct (process_line span st line) as [st1|] eqn:E; [|discriminate].
    intros H. apply process_line_out in E as [more1 E].
    apply IH in H as [more2 H]. exists (more1 ++ more2).
    now rewrite H, E, <- app_assoc.
Qed.

(** ** The first line of the input *)

(** C10. The first line is compared with the session start [l] of its
    day and with nothing else: before [l] it is dropped; otherwise it
    opens a candle whose [Start] is [l], with its price as the four
    prices, wherever its timestamp lies with respect to the end [l + span]
    of the first window. That candle is the output of a run of one line,
    and the first candle of the output of a longer run as soon as the
    second line is at or after [l + span]. A lone line at 10:00 with a
    span of five minutes gives a candle that starts at 07:00:00, not at
    10:00:00; a line at 10:00:01 after another line goes through the
    window advance and gets a candle that starts at 10:00:00. *)
Theorem first_line_compared_with_start_only (span : Z) (first second : Line)
    (rest : list Line) :
  let start := midnight (Timestamp first) + TradesStart in
  let candle :=
    {| CandleTicker := Ticker first; Start := start;
       PriceStart := Price first; PriceEnd := Price first;
       PriceMin := Price first; PriceMax := Price first |} in
  (Timestamp first < start -> process span [first] = Some []) /\
  (start <= Timestamp first ->
   process span [first] = Some [candle] /\
   exists st, process_state span [first] = Some st /\
              l st = start /\ r st = start + span /\
              candles st !! Ticker first = Some candle) /\
  (start <= Timestamp first -> 0 < span ->
   start + span <= Timestamp second ->
   exists cs, process span (first :: second :: rest) = Some (candle :: cs)) /\
  process (5 * Minute) [mkLine "AAPL" (clock 17926 10 0 0 0) 16288 0] =
    Some [{| CandleTicker := "AAPL"; Start := clock 17926 7 0 0 0;
             PriceStart := 16288; PriceEnd := 16288;
             PriceMin := 16288; PriceMax := 16288 |}] /\
  clock 17926 7 0 0 0 <> clock 17926 10 0 0 0 /\
  process (5 * Minute)
    [mkLine "SBER" (clock 17926 6 59 45 249000) 21390 0;
     mkLine "AAPL" (clock 17926 10 0 1 0) 16288 0] =
    Some [{| CandleTicker := "AAPL"; Start := clock 17926 10 0 0 0;
             PriceStart := 16288; PriceEnd := 16288;
             PriceMin := 16288; PriceMax := 16288 |}].
Proof.
  intros start candle.
  split; [|split; [|split; [|split; [|split]]]];
    [ | | | vm_compute; reflexivity | vm_compute; discriminate
      | vm_compute; reflexivity].
  - intros Hts. unfold process, process_first. cbn [process_loop candles out].
    fold start. assert ((Timestamp first <? start) = true) as -> by lia.
    now rewrite map_to_list_empty.
  - intros Hts.
    assert ((Timestamp first <? start) = false) as Hin by lia. split.
    + unfold process, process_first. cbn [process_loop candles out].
      fold start. rewrite Hin. now rewrite map_to_list_singleton.
    + eexists. split; [reflexivity|]. cbn [process_first l r candles].
      fold start. rewrite Hin. split; [reflexivity|]. split; [reflexivity|].
      apply lookup_singleton_eq.
  - intros Hts Hspan Hsecond.
    assert ((Timestamp first <? start) = false) as Hin by lia.
    cbn [process process_loop]. unfold process_line.
    cbn [process_first l r]. fold start.
    assert ((Timestamp second <? start) = false) as -> by lia.
    assert ((start + span <? Timestamp second)
            || (Timestamp second =? start + span) = true) as ->
      by (apply orb_true_iff; lia).
    destruct (adjust_fuel_enough span (Timestamp second) Hspan
                (flush (process_first span first))
                (process_first_session span first))
      as (st2 & Hadj & _ & Hsession).
    rewrite Hadj. apply adjust_keeps in Hadj as [_ Ho].
    destruct (process_loop_total span rest (aggregate st2 second) Hspan Hsession)
      as [st3 Hrun].
    rewrite Hrun. apply process_loop_out in Hrun as [more Hout].
    cbn [aggregate out] in Hout. rewrite Hout, Ho.
    cbn [flush process_first out candles]. fold start. rewrite Hin.
    rewrite map_to_list_singleton. cbn [fmap list_fmap snd app].
    eexists. reflexivity.
Qed.

Lemma first_line_compared_with_start_only_witness :
  exists cs,
    process (5 * Minute)
      [mkLine "AAPL" (clock 17926 10 0 0 0) 16288 0;
       mkLine "AAPL" (clock 17926 10 0 2 0) 16290 0;
       mkLine "AAPL" (clock 17926 10 0 3 0) 16291 0] =
    Some ({| CandleTicker := "AAPL"; Start := clock 17926 7 0 0 0;
             PriceStart := 16288; PriceEnd := 16288;
             PriceMin := 16288; PriceMax := 16288 |} :: cs).
Proof.
  destruct (first_line_compared_with_start_only (5 * Minute)
              (mkLine "AAPL" (clock 17926 10 0 0 0) 16288 0)
              (mkLine "AAPL" (clock 17926 10 0 2 0) 16290 0)
              [mkLine "AAPL" (clock 17926 10 0 3 0) 16291 0])
    as (_ & _ & Hlong & _).
  apply Hlong.
  - vm_compute. discriminate.
  - reflexivity.
  - vm_compute. discriminate.
Defined.

(** ** A line at the start of a later window *)

(** C5, on the code. The lines of a ticker that lie in one window of the
    grid do not always give one candle that starts at the start of that
    window. With a span of five minutes, the ticker K has its two lines,
    at 07:05:00 and 07:06:00, in the window [07:05, 07:10): the candle
    that starts at 07:05 with open 100, close 200, low 100 and high 200 is
    not sent; the line at 07:05:00, the end of the window that was
    current, is sent in a candle of its own that starts at 07:00, and the
    candle that starts at 07:05 has the line at 07:06:00 only. *)
Theorem window_start_line_in_earlier_candle :
  let lines :=
    [mkLine "X" (clock 17926 7 0 1 0) 50 0;
     mkLine "K" (clock 17926 7 5 0 0) 100 0;
     mkLine "K" (clock 17926 7 6 0 0) 200 0] in
  let expected :=
    {| CandleTicker := "K"; Start := clock 17926 7 5 0 0;
       PriceStart := 100; PriceEnd := 200; PriceMin := 100; PriceMax := 200 |} in
  let sent :=
    [{| CandleTicker := "X"; Start := clock 17926 7 0 0 0;
        PriceStart := 50; PriceEnd := 50; PriceMin := 50; PriceMax := 50 |};
     {| CandleTicker := "K"; Start := clock 17926 7 0 0 0;
        PriceStart := 100; PriceEnd := 100; PriceMin := 100; PriceMax := 100 |};
     {| CandleTicker := "K"; Start := clock 17926 7 5 0 0;
        PriceStart := 200; PriceEnd := 200; PriceMin := 200; PriceMax := 200 |}] in
  Forall (fun line =>
            Ticker line = "K"%string ->
            clock 17926 7 5 0 0 <= Timestamp line < clock 17926 7 10 0 0) lines /\
  prices_of "K" lines = [100; 200] /\
  process (5 * Minute) lines = Some sent /\
  ~ In expected sent.
Proof.
  intros lines expected sent. split; [|split; [|split]].
  - repeat constructor; cbn [Ticker Timestamp]; try discriminate;
      intros _; vm_compute; split; (reflexivity || discriminate).
  - reflexivity.
  - vm_compute. reflexivity.
  - subst expected sent. cbn [In]. intros [H | [H | [H | []]]]; discriminate H.
Qed.
